(** * gestionbot: the ledger of [main.py]

    A shallow embedding of the Discord stock and money manager: the ledger
    document [DATA], its persistence in [data.json], the permission check
    and the twelve slash-command handlers, each as a transformer of the
    state the handler can touch. *)

From stdpp Require Import gmap strings list fin_maps.
From Stdlib Require Import ZArith.

Local Open Scope Z_scope.

(** ** Configuration *)

Definition ALLOWED_USER_IDS : list Z :=
  [549140350887788544; 428666981604917249; 621802427221278740].

Definition ALLOWED_USER_NAMES : list string :=
  ["Alpha-1#0001"; "Alpha-4#0004"; "Alpha-5#0005"]%string.

(** Channel names are compared as byte strings (their UTF-8 encoding). *)
Definition CHANNEL_CMD : string := "⚡┇cmds".
Definition CHANNEL_BANQUE : string := "💵┇banque".
Definition CHANNEL_MARCH : string := "📦┇marchandises".
Definition CHANNEL_HISTORY : string := "📋┇historique".

Definition DATA_FILE : string := "data.json".

(** ** Data model *)

(** [status_message_ids]: the ids of the two status messages, [None] for
    the JSON [null] of a message not created yet. *)
Record status_ids := {
  ids_banque : option Z;
  ids_marchandises : option Z
}.

(** The ledger document: the dict of [DEFAULT_DATA], one field per key.
    Every document the program builds or saves has the four keys
    ([DEFAULT_DATA] has them and no handler removes one), so the fallbacks
    of [DATA.get(k, 0)] and [DATA.setdefault(k, {})] are never taken and a
    read of a key is a read of the field; a file without them is outside
    the model (see [json_load]).  Python integers are unbounded: [Z]; what
    CPython refuses to write or read of them is in [int_fits] below. *)
Record doc := {
  propre : Z;
  sale : Z;
  marchandises : gmap string Z;
  status_message_ids : status_ids
}.

Definition DEFAULT_DATA : doc :=
  {| propre := 0; sale := 0; marchandises := ∅;
     status_message_ids := {| ids_banque := None; ids_marchandises := None |} |}.

Definition set_propre (v : Z) (d : doc) : doc :=
  {| propre := v; sale := sale d; marchandises := marchandises d;
     status_message_ids := status_message_ids d |}.

Definition set_sale (v : Z) (d : doc) : doc :=
  {| propre := propre d; sale := v; marchandises := marchandises d;
     status_message_ids := status_message_ids d |}.

Definition set_marchandises (m : gmap string Z) (d : doc) : doc :=
  {| propre := propre d; sale := sale d; marchandises := m;
     status_message_ids := status_message_ids d |}.

(** [discord.Member], as far as the bot reads it. *)
Record member := {
  member_id : Z;
  member_name : string;
  member_discriminator : string
}.

(** The twelve slash commands with their parameters. *)
Inductive command :=
| PropreIn (montant : Z)
| PropreOut (montant : Z)
| SaleIn (montant : Z)
| SaleOut (montant : Z)
| NewMarchandise (nom : string)
| DeleteMarchandise (nom : string)
| MarchandiseIn (nom : string) (quantite : Z)
| MarchandiseOut (nom : string) (quantite : Z)
| CleanPropre
| CleanSale
| CleanMarchandise (nom : string)
| CleanMarchandiseAll.

(** What a handler answers through [interaction.response.send_message].
    The f-strings are kept as their template and operands, not rendered. *)
Inductive reply :=
| NotAuthorized                      (* "Vous n'êtes pas autorisé ..." *)
| WrongChannel                       (* "Les commandes doivent être utilisées dans ..." *)
| AlreadyExists (nom : string)       (* "La marchandise `nom` existe déjà." *)
| DoesNotExist (nom : string)        (* "La marchandise `nom` n'existe pas." *)
| DoesNotExistUseNew (nom : string)  (* "... n'existe pas. Utilisez /new_marchandise ..." *)
| Acknowledged (c : command).        (* the success message of the command *)

(** The content of a message in a guild channel. *)
Inductive content :=
| HistoryLine (now : Z) (who : member) (what : command)
| Loading
| EmbedBanque (now : Z) (argent_propre argent_sale : Z)
| EmbedMarchandises (now : Z) (stock : gmap string Z).

(** A text channel: its messages with their ids, oldest first. *)
Record text_channel := {
  ch_name : string;
  ch_messages : list (Z * content)
}.

(** One invocation: who calls, from which channel ([None] when
    [interaction.channel] is [None]), and the value of
    [datetime.utcnow()] while the handler runs. *)
Record interaction := {
  user : member;
  channel : option string;
  utcnow : Z
}.

#[local] Set Warnings "-register-all".

(** JSON values, as far as [data.json] uses them. *)
Inductive json :=
| JNull
| JInt (z : Z)
| JStr (s : string)
| JObject (fields : list (string * json)).

(** The content of [data.json]: a JSON text, or what is left when
    [json.dump] raised half-way through the file that [open(.., "w")] had
    emptied: the beginning of an object, which [json.load] cannot parse. *)
Inductive file_content :=
| Json (j : json)
| Truncated.

(** Everything a handler reads or writes: the global [DATA], the content
    of the file [DATA_FILE] ([None] while it does not exist), the text
    channels of the guild and the replies sent to callers, oldest first.
    Handlers run one after the other: the document is mutated and saved
    under [DATA_LOCK]. *)
Record world := {
  DATA : doc;
  data_file : option file_content;
  guild : list text_channel;
  responses : list reply
}.

Definition set_DATA (d : doc) (w : world) : world :=
  {| DATA := d; data_file := data_file w; guild := guild w; responses := responses w |}.

Definition set_data_file (f : option file_content) (w : world) : world :=
  {| DATA := DATA w; data_file := f; guild := guild w; responses := responses w |}.

Definition set_guild (g : list text_channel) (w : world) : world :=
  {| DATA := DATA w; data_file := data_file w; guild := g; responses := responses w |}.

Definition send_message (r : reply) (w : world) : world :=
  {| DATA := DATA w; data_file := data_file w; guild := guild w;
     responses := responses w ++ [r] |}.

(** ** Persistence *)

(** What [json.dump] writes for a document: a dict becomes an object, an
    [int] a number, [None] becomes [null].  The members of the stock come
    in the order of the map, not in the order in which the dict got its
    keys, which [json.load] does not look at. *)
Definition json_of_id (i : option Z) : json :=
  match i with
  | None => JNull
  | Some z => JInt z
  end.

Definition json_of_stock (m : gmap string Z) : json :=
  JObject (prod_map id JInt <$> map_to_list m).

Definition json_dump (d : doc) : json :=
  JObject
    [("propre"%string, JInt (propre d));
     ("sale"%string, JInt (sale d));
     ("marchandises"%string, json_of_stock (marchandises d));
     ("status_message_ids"%string,
       JObject [("banque"%string, json_of_id (ids_banque (status_message_ids d)));
                ("marchandises"%string,
                  json_of_id (ids_marchandises (status_message_ids d)))])].

(** CPython (3.11 and later, and the security releases of 3.7 to 3.10,
    with the default [sys.get_int_max_str_digits()]) refuses to convert an
    integer of more than 4300 digits to or from text, the sign not counted:
    [json.dump] and [json.load] raise [ValueError] on such an integer. *)
Definition INT_MAX_STR_DIGITS : Z := 4300.

Definition int_fits (z : Z) : bool := Z.abs z <? 10 ^ INT_MAX_STR_DIGITS.

Arguments int_fits : simpl never.

Definition id_fits (i : option Z) : bool := from_option int_fits true i.

(** No integer of the document is refused: both balances, every quantity
    and both status ids. *)
Definition doc_fits (d : doc) : bool :=
  int_fits (propre d) && int_fits (sale d)
  && bool_decide (map_Forall (λ _ q, int_fits q = true) (marchandises d))
  && id_fits (ids_banque (status_message_ids d))
  && id_fits (ids_marchandises (status_message_ids d)).

(** What [json.load] builds back.  An object becomes a dict, and a name
    that occurs twice keeps its last value.  [None] stands for the
    exception on an integer that is refused, and for a file that does not
    have the layout of a ledger document, which is outside the model. *)
Definition dict_of_fields {A} (l : list (string * A)) : gmap string A :=
  list_to_map (reverse l).

Definition int_of_json (j : json) : option Z :=
  match j with
  | JInt z => if int_fits z then Some z else None
  | _ => None
  end.

Definition id_of_json (j : json) : option (option Z) :=
  match j with
  | JNull => Some None
  | JInt z => if int_fits z then Some (Some z) else None
  | _ => None
  end.

Definition fields_of_json (j : json) : option (list (string * json)) :=
  match j with
  | JObject l => Some l
  | _ => None
  end.

Definition stock_of_json (j : json) : option (gmap string Z) :=
  l ← fields_of_json j;
  qs ← mapM (λ kv, pair kv.1 <$> int_of_json kv.2) l;
  Some (dict_of_fields qs).

Definition ids_of_json (j : json) : option status_ids :=
  l ← fields_of_json j;
  b ← dict_of_fields l !! "banque" ≫= id_of_json;
  m ← dict_of_fields l !! "marchandises" ≫= id_of_json;
  Some {| ids_banque := b; ids_marchandises := m |}.

Definition json_load (j : json) : option doc :=
  l ← fields_of_json j;
  p ← dict_of_fields l !! "propre" ≫= int_of_json;
  s ← dict_of_fields l !! "sale" ≫= int_of_json;
  m ← dict_of_fields l !! "marchandises" ≫= stock_of_json;
  i ← dict_of_fields l !! "status_message_ids" ≫= ids_of_json;
  Some {| propre := p; sale := s; marchandises := m; status_message_ids := i |}.

(** [save_data] when [json.dump] returns: the whole file is rewritten with
    the document.  The handlers below are modelled on the calls of
    [save_data] that return; [try_save_data] is the call with its
    exception. *)
Definition save_data (data : doc) (w : world) : world :=
  set_data_file (Some (Json (json_dump data))) w.

(** How a call ends: it returns, or it raises and leaves a state behind. *)
Inductive outcome :=
| Returned (w : world)
| Raised (w : world).

(** The call [save_data(data)]: the file is opened for writing, which
    empties it, and [json.dump] writes it member by member; on an integer
    that is refused it raises, [save_data] does not catch the exception,
    and the file keeps the members written so far. *)
Definition try_save_data (data : doc) (w : world) : outcome :=
  if doc_fits data then Returned (save_data data w)
  else Raised (set_data_file (Some Truncated) w).

(** [load_data]: on the first run the default document is written and
    returned, afterwards the document is read from the file.  The result is
    the document ([None] when [json.load] raises) and the file as
    [load_data] leaves it. *)
Definition load_data (file : option file_content) : option doc * option file_content :=
  match file with
  | None => (Some DEFAULT_DATA, Some (Json (json_dump DEFAULT_DATA)))
  | Some (Json j) => (json_load j, file)
  | Some Truncated => (None, file)
  end.

(** ** Permission check *)

Definition name_discrim (u : member) : string :=
  (member_name u +:+ "#" +:+ member_discriminator u)%string.

(** [is_user_allowed] for any two configured lists. *)
Definition user_allowed_in (ids : list Z) (names : list string) (u : member) : bool :=
  if bool_decide (member_id u ∈ ids) then true
  else if bool_decide (name_discrim u ∈ names) then true
  else false.

Definition is_user_allowed (u : member) : bool :=
  user_allowed_in ALLOWED_USER_IDS ALLOWED_USER_NAMES u.

Definition channel_is_cmd (c : option string) : bool :=
  match c with
  | None => false
  | Some n => bool_decide (n = CHANNEL_CMD)
  end.

Definition check_allowed_and_channel (i : interaction) (w : world) : bool * world :=
  if negb (is_user_allowed (user i)) then (false, send_message NotAuthorized w)
  else if negb (channel_is_cmd (channel i)) then (false, send_message WrongChannel w)
  else (true, w).

(** ** The guild *)

Fixpoint get_channel_by_name (g : list text_channel) (name : string) : option text_channel :=
  match g with
  | [] => None
  | ch :: g' => if decide (ch_name ch = name) then Some ch else get_channel_by_name g' name
  end.

(** An action on the channel that [get_channel_by_name] returns. *)
Fixpoint on_channel (name : string) (f : text_channel → text_channel)
    (g : list text_channel) : list text_channel :=
  match g with
  | [] => []
  | ch :: g' => if decide (ch_name ch = name) then f ch :: g' else ch :: on_channel name f g'
  end.

(** Discord gives a message sent to a channel an id that no message has
    yet; ids grow with time and are never [0]. *)
Definition next_id (ch : text_channel) : Z :=
  1 + foldr Z.max 0 (ch_messages ch).*1.

Definition send (c : content) (ch : text_channel) : text_channel :=
  {| ch_name := ch_name ch; ch_messages := ch_messages ch ++ [(next_id ch, c)] |}.

(** [message.edit].  The edit of a message that is gone raises, and the
    callers swallow the exception: nothing changes. *)
Definition edit (msg : Z) (c : content) (ch : text_channel) : text_channel :=
  {| ch_name := ch_name ch;
     ch_messages := (λ m, if decide (m.1 = msg) then (m.1, c) else m) <$> ch_messages ch |}.

(** [fetch_message]: the id of the message found, [None] when the call
    raises (no id, or no such message). *)
Definition fetch_message (ch : text_channel) (msg : option Z) : option Z :=
  i ← msg;
  if bool_decide (i ∈ (ch_messages ch).*1) then Some i else None.

Definition post_history (line : content) (w : world) : world :=
  match get_channel_by_name (guild w) CHANNEL_HISTORY with
  | Some _ => set_guild (on_channel CHANNEL_HISTORY (send line) (guild w)) w
  | None => w
  end.

Definition update_status_messages (now : Z) (banque_msg march_msg : Z) (data : doc)
    (w : world) : world :=
  let embed_b := EmbedBanque now (propre data) (sale data) in
  let w := set_guild (on_channel CHANNEL_BANQUE (edit banque_msg embed_b) (guild w)) w in
  let embed_m := EmbedMarchandises now (marchandises data) in
  set_guild (on_channel CHANNEL_MARCH (edit march_msg embed_m) (guild w)) w.

(** The status refresh of the four money handlers: each message is looked
    for on its own, and only under an id that is set ([if bid:], so neither
    [None] nor [0]). *)
Definition fetch_if_set (g : list text_channel) (name : string) (msg : option Z) : option Z :=
  ch ← get_channel_by_name g name;
  i ← msg;
  if bool_decide (i = 0) then None else fetch_message ch (Some i).

Definition refresh_if_set (now : Z) (w : world) : world :=
  let banque_msg :=
    fetch_if_set (guild w) CHANNEL_BANQUE (ids_banque (status_message_ids (DATA w))) in
  let march_msg :=
    fetch_if_set (guild w) CHANNEL_MARCH (ids_marchandises (status_message_ids (DATA w))) in
  match banque_msg, march_msg with
  | Some b, Some m => update_status_messages now b m (DATA w) w
  | _, _ => w
  end.

(** The status refresh of the eight other handlers: both fetches sit in
    one [try], and an exception of either leaves both messages [None].
    The outer [option] is [None] when the fetch raised. *)
Definition fetch_or_none (g : list text_channel) (name : string) (msg : option Z)
    : option (option Z) :=
  match get_channel_by_name g name with
  | None => Some None
  | Some ch => Some <$> fetch_message ch msg
  end.

Definition refresh (now : Z) (w : world) : world :=
  let fetched :=
    b ← fetch_or_none (guild w) CHANNEL_BANQUE (ids_banque (status_message_ids (DATA w)));
    m ← fetch_or_none (guild w) CHANNEL_MARCH (ids_marchandises (status_message_ids (DATA w)));
    Some (b, m) in
  match fetched with
  | Some (Some b, Some m) => update_status_messages now b m (DATA w) w
  | _ => w
  end.

(** ** Start-up *)

Definition set_ids_banque (i : option Z) (d : doc) : doc :=
  {| propre := propre d; sale := sale d; marchandises := marchandises d;
     status_message_ids :=
       {| ids_banque := i; ids_marchandises := ids_marchandises (status_message_ids d) |} |}.

Definition set_ids_marchandises (i : option Z) (d : doc) : doc :=
  {| propre := propre d; sale := sale d; marchandises := marchandises d;
     status_message_ids :=
       {| ids_banque := ids_banque (status_message_ids d); ids_marchandises := i |} |}.

(** [ensure_status_messages]: a status message that cannot be fetched is
    sent anew and its id recorded and saved. *)
Definition ensure_status_messages (w : world) : (option Z * option Z) * world :=
  match get_channel_by_name (guild w) CHANNEL_BANQUE,
        get_channel_by_name (guild w) CHANNEL_MARCH with
  | Some chan_banque, Some chan_march =>
    let '(banque_msg, w) :=
      match fetch_if_set (guild w) CHANNEL_BANQUE
              (ids_banque (status_message_ids (DATA w))) with
      | Some b => (b, w)
      | None =>
        let b := next_id chan_banque in
        let w := set_guild (on_channel CHANNEL_BANQUE (send Loading) (guild w)) w in
        let w := set_DATA (set_ids_banque (Some b) (DATA w)) w in
        (b, save_data (DATA w) w)
      end in
    let '(march_msg, w) :=
      match fetch_if_set (guild w) CHANNEL_MARCH
              (ids_marchandises (status_message_ids (DATA w))) with
      | Some m => (m, w)
      | None =>
        let m := next_id chan_march in
        let w := set_guild (on_channel CHANNEL_MARCH (send Loading) (guild w)) w in
        let w := set_DATA (set_ids_marchandises (Some m) (DATA w)) w in
        (m, save_data (DATA w) w)
      end in
    ((Some banque_msg, Some march_msg), w)
  | _, _ => ((None, None), w)
  end.

(** [on_ready] for one guild: what the loop [for guild in bot.guilds] does
    for a guild, and so [on_ready] itself for a bot that is in one guild.
    The loop over several guilds, which share [DATA] and with it the two
    status ids, is [on_ready_guilds] below. *)
Definition on_ready (now : Z) (w : world) : world :=
  let '((banque_msg, march_msg), w) := ensure_status_messages w in
  match banque_msg, march_msg with
  | Some b, Some m => update_status_messages now b m (DATA w) w
  | _, _ => w
  end.

(** The state once the module is imported: [DATA = load_data()]. *)
Definition start (file : option file_content) (g : list text_channel) : option world :=
  let (data, file) := load_data file in
  d ← data;
  Some {| DATA := d; data_file := file; guild := g; responses := [] |}.

(** ** Command handlers *)

Definition propre_in (i : interaction) (montant : Z) (w : world) : world :=
  let (ok, w) := check_allowed_and_channel i w in
  if negb ok then w else
  let w := set_DATA (set_propre (propre (DATA w) + montant) (DATA w)) w in
  let w := save_data (DATA w) w in
  let w := send_message (Acknowledged (PropreIn montant)) w in
  let w := post_history (HistoryLine (utcnow i) (user i) (PropreIn montant)) w in
  refresh_if_set (utcnow i) w.

Definition propre_out (i : interaction) (montant : Z) (w : world) : world :=
  let (ok, w) := check_allowed_and_channel i w in
  if negb ok then w else
  let w := set_DATA (set_propre (Z.max 0 (propre (DATA w) - montant)) (DATA w)) w in
  let w := save_data (DATA w) w in
  let w := send_message (Acknowledged (PropreOut montant)) w in
  let w := post_history (HistoryLine (utcnow i) (user i) (PropreOut montant)) w in
  refresh_if_set (utcnow i) w.

Definition sale_in (i : interaction) (montant : Z) (w : world) : world :=
  let (ok, w) := check_allowed_and_channel i w in
  if negb ok then w else
  let w := set_DATA (set_sale (sale (DATA w) + montant) (DATA w)) w in
  let w := save_data (DATA w) w in
  let w := send_message (Acknowledged (SaleIn montant)) w in
  let w := post_history (HistoryLine (utcnow i) (user i) (SaleIn montant)) w in
  refresh_if_set (utcnow i) w.

Definition sale_out (i : interaction) (montant : Z) (w : world) : world :=
  let (ok, w) := check_allowed_and_channel i w in
  if negb ok then w else
  let w := set_DATA (set_sale (Z.max 0 (sale (DATA w) - montant)) (DATA w)) w in
  let w := save_data (DATA w) w in
  let w := send_message (Acknowledged (SaleOut montant)) w in
  let w := post_history (HistoryLine (utcnow i) (user i) (SaleOut montant)) w in
  refresh_if_set (utcnow i) w.

Definition new_marchandise (i : interaction) (nom : string) (w : world) : world :=
  let (ok, w) := check_allowed_and_channel i w in
  if negb ok then w else
  let merch := marchandises (DATA w) in
  match merch !! nom with
  | Some _ => send_message (AlreadyExists nom) w
  | None =>
    let w := set_DATA (set_marchandises (<[nom := 0]> merch) (DATA w)) w in
    let w := save_data (DATA w) w in
    let w := send_message (Acknowledged (NewMarchandise nom)) w in
    let w := post_history (HistoryLine (utcnow i) (user i) (NewMarchandise nom)) w in
    refresh (utcnow i) w
  end.

Definition delete_marchandise (i : interaction) (nom : string) (w : world) : world :=
  let (ok, w) := check_allowed_and_channel i w in
  if negb ok then w else
  let merch := marchandises (DATA w) in
  match merch !! nom with
  | None => send_message (DoesNotExist nom) w
  | Some _ =>
    let w := set_DATA (set_marchandises (delete nom merch) (DATA w)) w in
    let w := save_data (DATA w) w in
    let w := send_message (Acknowledged (DeleteMarchandise nom)) w in
    let w := post_history (HistoryLine (utcnow i) (user i) (DeleteMarchandise nom)) w in
    refresh (utcnow i) w
  end.

Definition marchandise_in (i : interaction) (nom : string) (quantite : Z) (w : world) : world :=
  let (ok, w) := check_allowed_and_channel i w in
  if negb ok then w else
  let merch := marchandises (DATA w) in
  match merch !! nom with
  | None => send_message (DoesNotExistUseNew nom) w
  | Some _ =>
    let w := set_DATA
      (set_marchandises (<[nom := default 0 (merch !! nom) + quantite]> merch) (DATA w)) w in
    let w := save_data (DATA w) w in
    let w := send_message (Acknowledged (MarchandiseIn nom quantite)) w in
    let w := post_history (HistoryLine (utcnow i) (user i) (MarchandiseIn nom quantite)) w in
    refresh (utcnow i) w
  end.

Definition marchandise_out (i : interaction) (nom : string) (quantite : Z) (w : world) : world :=
  let (ok, w) := check_allowed_and_channel i w in
  if negb ok then w else
  let merch := marchandises (DATA w) in
  match merch !! nom with
  | None => send_message (DoesNotExist nom) w
  | Some _ =>
    let w := set_DATA
      (set_marchandises (<[nom := Z.max 0 (default 0 (merch !! nom) - quantite)]> merch)
         (DATA w)) w in
    let w := save_data (DATA w) w in
    let w := send_message (Acknowledged (MarchandiseOut nom quantite)) w in
    let w := post_history (HistoryLine (utcnow i) (user i) (MarchandiseOut nom quantite)) w in
    refresh (utcnow i) w
  end.

Definition clean_propre (i : interaction) (w : world) : world :=
  let (ok, w) := check_allowed_and_channel i w in
  if negb ok then w else
  let w := set_DATA (set_propre 0 (DATA w)) w in
  let w := save_data (DATA w) w in
  let w := send_message (Acknowledged CleanPropre) w in
  let w := post_history (HistoryLine (utcnow i) (user i) CleanPropre) w in
  refresh (utcnow i) w.

Definition clean_sale (i : interaction) (w : world) : world :=
  let (ok, w) := check_allowed_and_channel i w in
  if negb ok then w else
  let w := set_DATA (set_sale 0 (DATA w)) w in
  let w := save_data (DATA w) w in
  let w := send_message (Acknowledged CleanSale) w in
  let w := post_history (HistoryLine (utcnow i) (user i) CleanSale) w in
  refresh (utcnow i) w.

Definition clean_marchandise (i : interaction) (nom : string) (w : world) : world :=
  let (ok, w) := check_allowed_and_channel i w in
  if negb ok then w else
  let merch := marchandises (DATA w) in
  match merch !! nom with
  | None => send_message (DoesNotExist nom) w
  | Some _ =>
    let w := set_DATA (set_marchandises (<[nom := 0]> merch) (DATA w)) w in
    let w := save_data (DATA w) w in
    let w := send_message (Acknowledged (CleanMarchandise nom)) w in
    let w := post_history (HistoryLine (utcnow i) (user i) (CleanMarchandise nom)) w in
    refresh (utcnow i) w
  end.

Definition clean_marchandise_all (i : interaction) (w : world) : world :=
  let (ok, w) := check_allowed_and_channel i w in
  if negb ok then w else
  let w := set_DATA (set_marchandises ((λ _, 0) <$> marchandises (DATA w)) (DATA w)) w in
  let w := save_data (DATA w) w in
  let w := send_message (Acknowledged CleanMarchandiseAll) w in
  let w := post_history (HistoryLine (utcnow i) (user i) CleanMarchandiseAll) w in
  refresh (utcnow i) w.

(** The dispatch of the command tree: one handler per command. *)
Definition handle (c : command) (i : interaction) (w : world) : world :=
  match c with
  | PropreIn montant => propre_in i montant w
  | PropreOut montant => propre_out i montant w
  | SaleIn montant => sale_in i montant w
  | SaleOut montant => sale_out i montant w
  | NewMarchandise nom => new_marchandise i nom w
  | DeleteMarchandise nom => delete_marchandise i nom w
  | MarchandiseIn nom quantite => marchandise_in i nom quantite w
  | MarchandiseOut nom quantite => marchandise_out i nom quantite w
  | CleanPropre => clean_propre i w
  | CleanSale => clean_sale i w
  | CleanMarchandise nom => clean_marchandise i nom w
  | CleanMarchandiseAll => clean_marchandise_all i w
  end.

(** ** A bot in several guilds *)

(** The bot with all its guilds: they share the document, the file and the
    two status ids that the document records. *)
Record bot := {
  bot_DATA : doc;
  bot_file : option file_content;
  bot_guilds : list (list text_channel);
  bot_responses : list reply
}.

(** What the code sees with [guild] bound to the guild number [k]. *)
Definition in_guild (k : nat) (b : bot) : option world :=
  g ← bot_guilds b !! k;
  Some {| DATA := bot_DATA b; data_file := bot_file b; guild := g;
          responses := bot_responses b |}.

Definition back_to_bot (k : nat) (w : world) (b : bot) : bot :=
  {| bot_DATA := DATA w; bot_file := data_file w;
     bot_guilds := <[k := guild w]> (bot_guilds b);
     bot_responses := responses w |}.

Definition in_guild_do (f : world → world) (k : nat) (b : bot) : bot :=
  match in_guild k b with
  | Some w => back_to_bot k (f w) b
  | None => b
  end.

(** [on_ready] with its loop: one guild after the other, in the order of
    [bot.guilds]. *)
Definition on_ready_guilds (now : Z) (b : bot) : bot :=
  foldl (λ b k, in_guild_do (on_ready now) k b) b (seq 0 (length (bot_guilds b))).

(** What happens to the bot: the gateway is ready, or a command is invoked
    in the guild number [k]. *)
Inductive bot_event :=
| Readies (now : Z)
| Calls (k : nat) (c : command) (i : interaction).

Definition bot_step (b : bot) (e : bot_event) : bot :=
  match e with
  | Readies now => on_ready_guilds now b
  | Calls k c i => in_guild_do (handle c i) k b
  end.

Definition bot_run (es : list bot_event) (b : bot) : bot := foldl bot_step b es.

(** ** Runs *)

(** Every balance and every quantity of the document is at least zero. *)
Definition non_negative (d : doc) : Prop :=
  0 ≤ propre d ∧ 0 ≤ sale d ∧ ∀ nom q, marchandises d !! nom = Some q → 0 ≤ q.

(** The access check lets the invocation through. *)
Definition accepted (i : interaction) : Prop :=
  is_user_allowed (user i) = true ∧ channel i = Some CHANNEL_CMD.

(** What happens to the bot: the gateway is ready, or a command is
    invoked. *)
Inductive event :=
| Ready (now : Z)
| Call (c : command) (i : interaction).

Definition step (w : world) (e : event) : world :=
  match e with
  | Ready now => on_ready now w
  | Call c i => handle c i w
  end.

Definition run (es : list event) (w : world) : world := foldl step w es.

(** The states of a run that begins without [data.json]. *)
Definition reachable (w : world) : Prop :=
  ∃ g w0 es, start None g = Some w0 ∧ w = run es w0.

(** The handler only replied [r]: the document, the file and every
    channel of the guild (so the history too) are as before. *)
Definition only_replied (r : reply) (w w' : world) : Prop :=
  DATA w' = DATA w ∧ data_file w' = data_file w ∧ guild w' = guild w
  ∧ responses w' = responses w ++ [r].

(** An accepted [new_marchandise] of the name. *)
Definition recreates (nom : string) (e : event) : Prop :=
  match e with
  | Call (NewMarchandise n) i => n = nom ∧ accepted i
  | _ => False
  end.

(** The part of the ledger a command is about. *)
Inductive ledger_part := CleanMoney | DirtyMoney | Stock.

Definition part_of (c : command) : ledger_part :=
  match c with
  | PropreIn _ | PropreOut _ | CleanPropre => CleanMoney
  | SaleIn _ | SaleOut _ | CleanSale => DirtyMoney
  | NewMarchandise _ | DeleteMarchandise _ | MarchandiseIn _ _ | MarchandiseOut _ _
  | CleanMarchandise _ | CleanMarchandiseAll => Stock
  end.

(** Every field of the document outside the part is the same in [d] and
    [d']. *)
Definition same_outside (p : ledger_part) (d d' : doc) : Prop :=
  match p with
  | CleanMoney =>
    sale d' = sale d ∧ marchandises d' = marchandises d
    ∧ status_message_ids d' = status_message_ids d
  | DirtyMoney =>
    propre d' = propre d ∧ marchandises d' = marchandises d
    ∧ status_message_ids d' = status_message_ids d
  | Stock =>
    propre d' = propre d ∧ sale d' = sale d
    ∧ status_message_ids d' = status_message_ids d
  end.

(** An in command whose amount takes the value it adds to below zero. *)
Definition driven_below_zero (c : command) (d : doc) : Prop :=
  match c with
  | PropreIn montant => propre d + montant < 0
  | SaleIn montant => sale d + montant < 0
  | MarchandiseIn nom quantite =>
    ∃ q, marchandises d !! nom = Some q ∧ q + quantite < 0
  | _ => False
  end.

(** No in command of the event has a negative amount. *)
Definition adds_non_negative (e : event) : Prop :=
  match e with
  | Call (PropreIn a) _ | Call (SaleIn a) _ | Call (MarchandiseIn _ a) _ => 0 ≤ a
  | _ => True
  end.

(** The state a call leaves, returned or not. *)
Definition state_after (o : outcome) : world :=
  match o with
  | Returned w | Raised w => w
  end.

(** A document with an integer of 4301 digits. *)
Definition refused_doc : doc := set_propre (10 ^ INT_MAX_STR_DIGITS) DEFAULT_DATA.

(** The file holds the document that is in memory. *)
Definition in_sync (w : world) : Prop :=
  data_file w = Some (Json (json_dump (DATA w))).

(** The reply of a failed access check: the user is checked first. *)
Definition rejection (i : interaction) : reply :=
  if is_user_allowed (user i) then WrongChannel else NotAuthorized.

(** The document that the handler of [c] leaves when the access check
    passes, as a function of the document it finds ([DATA_handle_accepted]
    below proves that it is). *)
Definition updated (c : command) (d : doc) : doc :=
  match c with
  | PropreIn montant => set_propre (propre d + montant) d
  | PropreOut montant => set_propre (Z.max 0 (propre d - montant)) d
  | SaleIn montant => set_sale (sale d + montant) d
  | SaleOut montant => set_sale (Z.max 0 (sale d - montant)) d
  | NewMarchandise nom =>
    match marchandises d !! nom with
    | Some _ => d
    | None => set_marchandises (<[nom := 0]> (marchandises d)) d
    end
  | DeleteMarchandise nom =>
    match marchandises d !! nom with
    | Some _ => set_marchandises (delete nom (marchandises d)) d
    | None => d
    end
  | MarchandiseIn nom quantite =>
    match marchandises d !! nom with
    | Some q => set_marchandises (<[nom := q + quantite]> (marchandises d)) d
    | None => d
    end
  | MarchandiseOut nom quantite =>
    match marchandises d !! nom with
    | Some q => set_marchandises (<[nom := Z.max 0 (q - quantite)]> (marchandises d)) d
    | None => d
    end
  | CleanPropre => set_propre 0 d
  | CleanSale => set_sale 0 d
  | CleanMarchandise nom =>
    match marchandises d !! nom with
    | Some _ => set_marchandises (<[nom := 0]> (marchandises d)) d
    | None => d
    end
  | CleanMarchandiseAll => set_marchandises ((λ _, 0) <$> marchandises d) d
  end.

(** ** Examples of callers and states *)

(** A caller on the allow-list, in the command channel. *)
Definition alpha_1 : member :=
  {| member_id := 549140350887788544; member_name := "Alpha-1";
     member_discriminator := "0001" |}.

Definition from_cmds : interaction :=
  {| user := alpha_1; channel := Some CHANNEL_CMD; utcnow := 0 |}.

(** The first run in a guild that has the four channels, before
    [on_ready]. *)
Definition four_channels : list text_channel :=
  [{| ch_name := CHANNEL_CMD; ch_messages := [] |};
   {| ch_name := CHANNEL_BANQUE; ch_messages := [] |};
   {| ch_name := CHANNEL_MARCH; ch_messages := [] |};
   {| ch_name := CHANNEL_HISTORY; ch_messages := [] |}].

Definition first_run : world :=
  {| DATA := DEFAULT_DATA; data_file := Some (Json (json_dump DEFAULT_DATA));
     guild := four_channels; responses := [] |}.

(** A ledger with ten crates and three boxes. *)
Definition crates_and_boxes : doc :=
  set_marchandises {[ "crates"%string := 10; "boxes"%string := 3 ]} DEFAULT_DATA.

Definition stocked : world :=
  {| DATA := crates_and_boxes; data_file := Some (Json (json_dump crates_and_boxes));
     guild := four_channels; responses := [] |}.

(** A caller who is on neither list. *)
Definition stranger : interaction :=
  {| user := {| member_id := 7; member_name := "Omega"; member_discriminator := "0042" |};
     channel := Some CHANNEL_CMD; utcnow := 0 |}.

(** A user known by name only. *)
Definition legacy_alpha_4 : member :=
  {| member_id := 4; member_name := "Alpha-4"; member_discriminator := "0004" |}.

(** ** Vocabulary of the further properties *)

(** The command applies to the document: the item of a [new_marchandise]
    is not there yet, the item of the other item commands is there.  The
    money commands and [clean_marchandise_all] always apply. *)
Definition performed (c : command) (d : doc) : Prop :=
  match c with
  | NewMarchandise nom => marchandises d !! nom = None
  | DeleteMarchandise nom | MarchandiseIn nom _ | MarchandiseOut nom _
  | CleanMarchandise nom => is_Some (marchandises d !! nom)
  | _ => True
  end.

(** The warning of an item command that does not apply. *)
Definition refusal (c : command) : reply :=
  match c with
  | NewMarchandise nom => AlreadyExists nom
  | MarchandiseIn nom _ => DoesNotExistUseNew nom
  | DeleteMarchandise nom | MarchandiseOut nom _ | CleanMarchandise nom => DoesNotExist nom
  | _ => Acknowledged c
  end.

(** The command is neither [new_marchandise] nor [delete_marchandise]. *)
Definition keeps_names (c : command) : Prop :=
  match c with
  | NewMarchandise _ | DeleteMarchandise _ => False
  | _ => True
  end.

(** The messages of the history channel, [None] when the guild has no
    such channel. *)
Definition history (w : world) : option (list (Z * content)) :=
  ch_messages <$> get_channel_by_name (guild w) CHANNEL_HISTORY.

(** A command invoked by somebody the access check turns away. *)
Definition turned_away (e : event) : Prop :=
  match e with
  | Ready _ => False
  | Call _ i => ¬ accepted i
  end.

(** The guild has a message [msg] in its channel [name], under an id that
    the handlers take for set. *)
Definition present (g : list text_channel) (name : string) (msg : Z) : Prop :=
  msg ≠ 0 ∧ ∃ ch, get_channel_by_name g name = Some ch ∧ msg ∈ (ch_messages ch).*1.

(** The message [msg] of the channel [name] is there and reads [c]. *)
Definition shows (g : list text_channel) (name : string) (msg : Z) (c : content) : Prop :=
  present g name msg
  ∧ ∀ ch c', get_channel_by_name g name = Some ch → (msg, c') ∈ ch_messages ch → c' = c.

(** The two status messages recorded in the document are there and show
    the balances and the stock of the document. *)
Definition mirrored (w : world) : Prop :=
  ∃ b m tb tm,
    ids_banque (status_message_ids (DATA w)) = Some b
    ∧ ids_marchandises (status_message_ids (DATA w)) = Some m
    ∧ shows (guild w) CHANNEL_BANQUE b (EmbedBanque tb (propre (DATA w)) (sale (DATA w)))
    ∧ shows (guild w) CHANNEL_MARCH m (EmbedMarchandises tm (marchandises (DATA w))).

(** The guild has the two status channels. *)
Definition has_status_channels (g : list text_channel) : Prop :=
  is_Some (get_channel_by_name g CHANNEL_BANQUE)
  ∧ is_Some (get_channel_by_name g CHANNEL_MARCH).

(** The ids of the messages of the channel [name], oldest first. *)
Definition message_ids (g : list text_channel) (name : string) : option (list Z) :=
  (λ ch, (ch_messages ch).*1) <$> get_channel_by_name g name.

(** The bot that is in the guild of [w] only. *)
Definition solo (w : world) : bot :=
  {| bot_DATA := DATA w; bot_file := data_file w; bot_guilds := [guild w];
     bot_responses := responses w |}.

(** The events of a bot that is in one guild, for that guild; a command
    cannot come from a guild the bot is not in. *)
Definition solo_event (e : bot_event) : list event :=
  match e with
  | Readies now => [Ready now]
  | Calls 0 c i => [Call c i]
  | Calls (S _) _ _ => []
  end.

(** A second guild, whose status channels hold a message already. *)
Definition busy_channels : list text_channel :=
  [{| ch_name := CHANNEL_CMD; ch_messages := [] |};
   {| ch_name := CHANNEL_BANQUE; ch_messages := [(200, Loading)] |};
   {| ch_name := CHANNEL_MARCH; ch_messages := [(200, Loading)] |};
   {| ch_name := CHANNEL_HISTORY; ch_messages := [] |}].

Definition two_guilds : bot :=
  {| bot_DATA := DEFAULT_DATA; bot_file := Some (Json (json_dump DEFAULT_DATA));
     bot_guilds := [four_channels; busy_channels]; bot_responses := [] |}.

(** * Properties *)

(** ** The access check *)

Lemma channel_is_cmd_true c : channel_is_cmd c = true ↔ c = Some CHANNEL_CMD.
Proof.
  destruct c as [n|]; simpl; [|split; discriminate].
  rewrite bool_decide_eq_true. split; congruence.
Qed.

Lemma accepted_dec i : accepted i ∨ ¬ accepted i.
Proof.
  unfold accepted. destruct (is_user_allowed (user i)); [|right; intros [? _]; discriminate].
  destruct (decide (channel i = Some CHANNEL_CMD)); [left|right]; tauto.
Qed.

Lemma check_accepted i w : accepted i → check_allowed_and_channel i w = (true, w).
Proof.
  intros [Hu Hc]. unfold check_allowed_and_channel. rewrite Hu. simpl.
  apply channel_is_cmd_true in Hc. by rewrite Hc.
Qed.

Lemma check_rejected i w :
  ¬ accepted i → check_allowed_and_channel i w = (false, send_message (rejection i) w).
Proof.
  intros Hn. unfold check_allowed_and_channel, rejection.
  destruct (is_user_allowed (user i)) eqn:Hu; simpl; [|done].
  destruct (channel_is_cmd (channel i)) eqn:Hc; simpl; [|done].
  destruct Hn. split; [done|]. by apply channel_is_cmd_true.
Qed.

Lemma handle_rejected c i w : ¬ accepted i → handle c i w = send_message (rejection i) w.
Proof.
  intros Hn. destruct c; simpl;
    unfold propre_in, propre_out, sale_in, sale_out, new_marchandise, delete_marchandise,
      marchandise_in, marchandise_out, clean_propre, clean_sale, clean_marchandise,
      clean_marchandise_all;
    by rewrite check_rejected.
Qed.

(** ** What the guild actions leave alone *)

Lemma post_history_ledger line w :
  DATA (post_history line w) = DATA w ∧ data_file (post_history line w) = data_file w
  ∧ responses (post_history line w) = responses w.
Proof. unfold post_history. by destruct (get_channel_by_name _ _). Qed.

Lemma refresh_if_set_ledger now w :
  DATA (refresh_if_set now w) = DATA w ∧ data_file (refresh_if_set now w) = data_file w
  ∧ responses (refresh_if_set now w) = responses w.
Proof. unfold refresh_if_set. by repeat case_match. Qed.

Lemma refresh_ledger now w :
  DATA (refresh now w) = DATA w ∧ data_file (refresh now w) = data_file w
  ∧ responses (refresh now w) = responses w.
Proof. unfold refresh. by repeat case_match. Qed.

Lemma DATA_post_history line w : DATA (post_history line w) = DATA w.
Proof. apply post_history_ledger. Qed.

Lemma DATA_refresh_if_set now w : DATA (refresh_if_set now w) = DATA w.
Proof. apply refresh_if_set_ledger. Qed.

Lemma DATA_refresh now w : DATA (refresh now w) = DATA w.
Proof. apply refresh_ledger. Qed.

Lemma data_file_post_history line w : data_file (post_history line w) = data_file w.
Proof. apply post_history_ledger. Qed.

Lemma data_file_refresh_if_set now w : data_file (refresh_if_set now w) = data_file w.
Proof. apply refresh_if_set_ledger. Qed.

Lemma data_file_refresh now w : data_file (refresh now w) = data_file w.
Proof. apply refresh_ledger. Qed.

Create Rewrite HintDb ledger.
#[local] Hint Rewrite DATA_post_history DATA_refresh_if_set DATA_refresh
  data_file_post_history data_file_refresh_if_set data_file_refresh : ledger.

(** ** The document after an accepted command *)

Ltac handler_unfold :=
  unfold handle, propre_in, propre_out, sale_in, sale_out, new_marchandise,
    delete_marchandise, marchandise_in, marchandise_out, clean_propre, clean_sale,
    clean_marchandise, clean_marchandise_all.

Lemma DATA_handle_accepted c i w : accepted i → DATA (handle c i w) = updated c (DATA w).
Proof.
  intros Ha. destruct c; handler_unfold; rewrite check_accepted by done; simpl;
    try destruct (marchandises (DATA w) !! nom) eqn:Hnom; simpl;
    by autorewrite with ledger.
Qed.

Lemma DATA_handle_rejected c i w : ¬ accepted i → DATA (handle c i w) = DATA w.
Proof. intros Hn. by rewrite handle_rejected. Qed.

(** ** Running several events *)

Lemma run_app es1 es2 w : run (es1 ++ es2) w = run es2 (run es1 w).
Proof. apply foldl_app. Qed.

(** ** Claims *)

Lemma from_cmds_accepted : accepted from_cmds.
Proof. split; reflexivity. Defined.

(** C2: an accepted [propre_out] (resp. [sale_out]) of any amount sets the
    clean (resp. dirty) balance to [max 0 (b - a)], whatever the balance
    [b] was; starting from a clean balance of 0, [propre_in 500] then
    [propre_out 700] leaves 0, not -200. *)
Theorem C2_balance_out_clamps (i j : interaction) (montant : Z) (w : world) :
  accepted i → accepted j →
  propre (DATA (propre_out i montant w)) = Z.max 0 (propre (DATA w) - montant)
  ∧ sale (DATA (sale_out i montant w)) = Z.max 0 (sale (DATA w) - montant)
  ∧ (propre (DATA w) = 0 →
     propre (DATA (propre_in i 500 w)) = 500
     ∧ propre (DATA (propre_out j 700 (propre_in i 500 w))) = 0).
Proof.
  intros Hi Hj.
  change (propre_out i montant w) with (handle (PropreOut montant) i w).
  change (sale_out i montant w) with (handle (SaleOut montant) i w).
  change (propre_out j 700 (propre_in i 500 w))
    with (handle (PropreOut 700) j (handle (PropreIn 500) i w)).
  change (propre_in i 500 w) with (handle (PropreIn 500) i w).
  rewrite !DATA_handle_accepted by done. simpl.
  split; [done|]. split; [done|]. intros ->. split; reflexivity.
Qed.

Lemma C2_balance_out_clamps_witness :
  accepted from_cmds
  ∧ propre (DATA (propre_out from_cmds 700 (propre_in from_cmds 500 first_run))) = 0.
Proof.
  split; [exact from_cmds_accepted|].
  destruct (C2_balance_out_clamps from_cmds from_cmds 0 first_run
              from_cmds_accepted from_cmds_accepted) as (_ & _ & scenario).
  apply scenario. reflexivity.
Defined.

Lemma only_replied_send r w : only_replied r w (send_message r w).
Proof. by repeat split. Qed.

(** C3: an accepted [propre_in] (resp. [sale_in]) of any amount [a] sets
    the clean (resp. dirty) balance [b] to [b + a], and an accepted
    [marchandise_in] on an item of quantity [q] sets its quantity to
    [q + a], the other items staying as they are. *)
Theorem C3_in_adds (i : interaction) (nom : string) (a q : Z) (w : world) :
  accepted i →
  propre (DATA (propre_in i a w)) = propre (DATA w) + a
  ∧ sale (DATA (sale_in i a w)) = sale (DATA w) + a
  ∧ (marchandises (DATA w) !! nom = Some q →
     marchandises (DATA (marchandise_in i nom a w)) !! nom = Some (q + a)
     ∧ marchandises (DATA (marchandise_in i nom a w))
       = <[nom := q + a]> (marchandises (DATA w))).
Proof.
  intros Hi.
  change (propre_in i a w) with (handle (PropreIn a) i w).
  change (sale_in i a w) with (handle (SaleIn a) i w).
  change (marchandise_in i nom a w) with (handle (MarchandiseIn nom a) i w).
  rewrite !DATA_handle_accepted by done. simpl.
  split; [done|]. split; [done|]. intros ->. simpl.
  by rewrite lookup_insert_eq.
Qed.

Lemma C3_in_adds_witness :
  accepted from_cmds
  ∧ propre (DATA (propre_in from_cmds (-3) first_run)) = 0 + -3.
Proof.
  split; [exact from_cmds_accepted|].
  apply (C3_in_adds from_cmds "crates" (-3) 0 first_run from_cmds_accepted).
Defined.

(** C4: an accepted [new_marchandise] on a name the document already has
    changes nothing: the document (so the quantity of the item) is as
    before, the file is not written, no channel receives a message (no
    history line), and the caller is told that the item exists. *)
Theorem C4_duplicate_is_noop (i : interaction) (nom : string) (q : Z) (w : world) :
  accepted i →
  marchandises (DATA w) !! nom = Some q →
  only_replied (AlreadyExists nom) w (new_marchandise i nom w)
  ∧ marchandises (DATA (new_marchandise i nom w)) !! nom = Some q.
Proof.
  intros Hi Hq.
  assert (new_marchandise i nom w = send_message (AlreadyExists nom) w) as ->.
  { unfold new_marchandise. rewrite check_accepted by done. simpl. by rewrite Hq. }
  split; [apply only_replied_send | done].
Qed.

Lemma C4_duplicate_is_noop_witness :
  accepted from_cmds
  ∧ marchandises (DATA stocked) !! "crates"%string = Some 10
  ∧ DATA (new_marchandise from_cmds "crates" stocked) = DATA stocked.
Proof.
  split; [exact from_cmds_accepted|]. split; [reflexivity|].
  apply (C4_duplicate_is_noop from_cmds "crates" 10 stocked from_cmds_accepted).
  reflexivity.
Defined.

(** C6: when the access check fails (the user is not allowed, or the
    channel is not the command channel) each of the twelve handlers only
    sends the rejection: the document is as before, nothing is saved, and
    no channel receives a message (no history line). *)
Theorem C6_rejected_is_noop (c : command) (i : interaction) (w : world) :
  is_user_allowed (user i) = false ∨ channel i ≠ Some CHANNEL_CMD →
  only_replied (rejection i) w (handle c i w)
  ∧ (rejection i = NotAuthorized ∨ rejection i = WrongChannel).
Proof.
  intros Hfail.
  assert (¬ accepted i) as Hn.
  { intros [Hu Hc]. destruct Hfail; congruence. }
  rewrite handle_rejected by done. split; [apply only_replied_send|].
  unfold rejection. destruct (is_user_allowed (user i)); auto.
Qed.

Lemma C6_rejected_is_noop_witness :
  is_user_allowed (user stranger) = false
  ∧ only_replied NotAuthorized stocked (handle (PropreIn 5) stranger stocked).
Proof.
  split; [reflexivity|].
  apply (C6_rejected_is_noop (PropreIn 5) stranger stocked). left. reflexivity.
Defined.

(** C10: a handler changes at most its own part of the document: the
    clean-money commands leave the dirty balance, the stock and both
    status ids as they are, the dirty-money commands leave the clean
    balance, the stock and both ids, and the stock commands leave both
    balances and both ids. *)
Theorem C10_frame (c : command) (i : interaction) (w : world) :
  same_outside (part_of c) (DATA w) (DATA (handle c i w)).
Proof.
  destruct (accepted_dec i) as [Hi|Hn].
  - rewrite DATA_handle_accepted by done.
    destruct c; simpl; repeat case_match; by repeat split.
  - rewrite DATA_handle_rejected by done. by destruct c; repeat split.
Qed.

(** ** Start-up and the balances *)

Lemma update_status_messages_DATA now b m data w :
  DATA (update_status_messages now b m data w) = DATA w.
Proof. reflexivity. Qed.

Lemma ensure_status_messages_balances w :
  propre (DATA (ensure_status_messages w).2) = propre (DATA w)
  ∧ sale (DATA (ensure_status_messages w).2) = sale (DATA w)
  ∧ marchandises (DATA (ensure_status_messages w).2) = marchandises (DATA w).
Proof. unfold ensure_status_messages. by repeat case_match; simplify_eq/=. Qed.

Lemma on_ready_balances now w :
  propre (DATA (on_ready now w)) = propre (DATA w)
  ∧ sale (DATA (on_ready now w)) = sale (DATA w)
  ∧ marchandises (DATA (on_ready now w)) = marchandises (DATA w).
Proof.
  unfold on_ready. pose proof (ensure_status_messages_balances w) as H.
  destruct (ensure_status_messages w) as [[banque_msg march_msg] w'].
  by repeat case_match.
Qed.

(** ** Items that are not there *)

Lemma step_keeps_absent nom e w :
  marchandises (DATA w) !! nom = None →
  ¬ recreates nom e →
  marchandises (DATA (step w e)) !! nom = None.
Proof.
  intros Hnone Hnot. destruct e as [now|c i]; simpl.
  - by destruct (on_ready_balances now w) as (_ & _ & ->).
  - destruct (accepted_dec i) as [Hi|Hn]; [|by rewrite DATA_handle_rejected].
    rewrite DATA_handle_accepted by done.
    destruct c; simpl; try done; repeat case_match; simpl; try done.
    + destruct (decide (nom0 = nom)) as [->|Hne]; [by destruct Hnot|].
      by rewrite lookup_insert_ne.
    + rewrite lookup_delete. by case_decide.
    + rewrite lookup_insert_ne; [done|congruence].
    + rewrite lookup_insert_ne; [done|congruence].
    + rewrite lookup_insert_ne; [done|congruence].
    + by rewrite lookup_fmap, Hnone.
Qed.

Lemma run_keeps_absent nom es w :
  marchandises (DATA w) !! nom = None →
  Forall (λ e, ¬ recreates nom e) es →
  marchandises (DATA (run es w)) !! nom = None.
Proof.
  intros Hnone Hes. revert w Hnone.
  induction Hes as [|e es He _ IH]; intros w Hnone; [done|].
  apply IH. by apply step_keeps_absent.
Qed.

Lemma marchandise_in_absent i nom quantite w :
  accepted i →
  marchandises (DATA w) !! nom = None →
  marchandise_in i nom quantite w = send_message (DoesNotExistUseNew nom) w.
Proof.
  intros Hi Hnone. unfold marchandise_in. rewrite check_accepted by done.
  simpl. by rewrite Hnone.
Qed.

(** C5: an accepted [delete_marchandise] of a name the document does not
    have only answers that the item does not exist, the document staying as
    it is; and once a name has been deleted, an accepted [marchandise_in]
    on it only answers that the item does not exist, the document staying
    as it is, after any events that do not create the name again. *)
Theorem C5_absent_item (i j k : interaction) (nom : string) (quantite : Z)
    (es : list event) (w : world) :
  accepted i → accepted j → accepted k →
  (marchandises (DATA w) !! nom = None →
   only_replied (DoesNotExist nom) w (delete_marchandise i nom w))
  ∧ (is_Some (marchandises (DATA w) !! nom) →
     Forall (λ e, ¬ recreates nom e) es →
     marchandises (DATA (delete_marchandise j nom w)) !! nom = None
     ∧ only_replied (DoesNotExistUseNew nom)
         (run es (delete_marchandise j nom w))
         (marchandise_in k nom quantite (run es (delete_marchandise j nom w)))).
Proof.
  intros Hi Hj Hk. split.
  - intros Hnone.
    assert (delete_marchandise i nom w = send_message (DoesNotExist nom) w) as ->.
    { unfold delete_marchandise. rewrite check_accepted by done. simpl. by rewrite Hnone. }
    apply only_replied_send.
  - intros [q Hq] Hes.
    assert (marchandises (DATA (delete_marchandise j nom w)) !! nom = None) as Hgone.
    { change (delete_marchandise j nom w) with (handle (DeleteMarchandise nom) j w).
      rewrite DATA_handle_accepted by done. simpl. rewrite Hq. simpl.
      apply lookup_delete_eq. }
    split; [done|].
    rewrite marchandise_in_absent; [apply only_replied_send | done |].
    by apply run_keeps_absent.
Qed.

Lemma C5_absent_item_witness :
  only_replied (DoesNotExist "barrels") stocked
    (delete_marchandise from_cmds "barrels" stocked)
  ∧ only_replied (DoesNotExistUseNew "crates")
      (run [Ready 1; Call (PropreIn 5) from_cmds] (delete_marchandise from_cmds "crates" stocked))
      (marchandise_in from_cmds "crates" 4
         (run [Ready 1; Call (PropreIn 5) from_cmds]
            (delete_marchandise from_cmds "crates" stocked))).
Proof.
  split.
  - apply (C5_absent_item from_cmds from_cmds from_cmds "barrels" 4 [] stocked
             from_cmds_accepted from_cmds_accepted from_cmds_accepted).
    reflexivity.
  - apply (C5_absent_item from_cmds from_cmds from_cmds "crates" 4
             [Ready 1; Call (PropreIn 5) from_cmds] stocked
             from_cmds_accepted from_cmds_accepted from_cmds_accepted).
    + exists 10. reflexivity.
    + repeat constructor; simpl; tauto.
Defined.

(** C8: an accepted reset gives zero whatever the value was:
    [clean_propre] for the clean balance, [clean_sale] for the dirty
    balance, [clean_marchandise] for the quantity of an item the document
    has; and [clean_marchandise_all] leaves every quantity at zero and the
    set of item names as it was. *)
Theorem C8_reset_gives_zero (i : interaction) (nom : string) (q : Z) (w : world) :
  accepted i →
  propre (DATA (clean_propre i w)) = 0
  ∧ sale (DATA (clean_sale i w)) = 0
  ∧ (marchandises (DATA w) !! nom = Some q →
     marchandises (DATA (clean_marchandise i nom w)) !! nom = Some 0)
  ∧ (∀ n v, marchandises (DATA (clean_marchandise_all i w)) !! n = Some v → v = 0)
  ∧ dom (marchandises (DATA (clean_marchandise_all i w))) = dom (marchandises (DATA w)).
Proof.
  intros Hi.
  change (clean_propre i w) with (handle CleanPropre i w).
  change (clean_sale i w) with (handle CleanSale i w).
  change (clean_marchandise i nom w) with (handle (CleanMarchandise nom) i w).
  change (clean_marchandise_all i w) with (handle CleanMarchandiseAll i w).
  rewrite !DATA_handle_accepted by done. simpl.
  split; [done|]. split; [done|]. split; [|split].
  - intros ->. simpl. apply lookup_insert_eq.
  - intros n v. rewrite lookup_fmap. destruct (marchandises (DATA w) !! n); naive_solver.
  - apply dom_fmap_L.
Qed.

Lemma C8_reset_gives_zero_witness :
  accepted from_cmds
  ∧ marchandises (DATA (clean_marchandise_all from_cmds stocked))
    = {[ "crates"%string := 0; "boxes"%string := 0 ]}
  ∧ dom (marchandises (DATA (clean_marchandise_all from_cmds stocked)))
    = dom (marchandises (DATA stocked)).
Proof.
  split; [exact from_cmds_accepted|]. split; [reflexivity|].
  apply (C8_reset_gives_zero from_cmds "crates" 10 stocked from_cmds_accepted).
Defined.

(** ** The file *)

Lemma dict_of_fields_to_list {A} (m : gmap string A) : dict_of_fields (map_to_list m) = m.
Proof.
  unfold dict_of_fields. rewrite <- (list_to_map_to_list m) at 2.
  symmetry. apply list_to_map_proper; [apply NoDup_fst_map_to_list|].
  symmetry. apply reverse_Permutation.
Qed.

Lemma doc_fits_true d :
  doc_fits d = true
  ↔ int_fits (propre d) = true ∧ int_fits (sale d) = true
    ∧ map_Forall (λ _ q, int_fits q = true) (marchandises d)
    ∧ id_fits (ids_banque (status_message_ids d)) = true
    ∧ id_fits (ids_marchandises (status_message_ids d)) = true.
Proof. unfold doc_fits. rewrite !andb_true_iff, bool_decide_eq_true. tauto. Qed.

Lemma quantities_of_json (l : list (string * Z)) :
  Forall (λ kv, int_fits kv.2 = true) l →
  mapM (λ kv : string * json, pair kv.1 <$> int_of_json kv.2) (prod_map id JInt <$> l)
  = Some l.
Proof.
  induction 1 as [|[k q] l Hq _ IH]; [done|].
  rewrite fmap_cons. cbn [mapM]. rewrite IH. simpl in *. by rewrite Hq.
Qed.

Lemma stock_of_json_of_stock m :
  map_Forall (λ _ q, int_fits q = true) m → stock_of_json (json_of_stock m) = Some m.
Proof.
  intros Hm. unfold stock_of_json, json_of_stock. simpl.
  rewrite quantities_of_json.
  - simpl. by rewrite dict_of_fields_to_list.
  - apply map_Forall_to_list in Hm. eapply Forall_impl; [exact Hm|]. by intros [k q].
Qed.

Lemma id_of_json_of_id i : id_fits i = true → id_of_json (json_of_id i) = Some i.
Proof. destruct i as [z|]; simpl; [|done]. by intros ->. Qed.

Ltac lookup_field :=
  rewrite ?lookup_insert;
  repeat (case_decide; [try discriminate | try congruence]).

Lemma ids_of_json_of_ids b m :
  id_fits b = true → id_fits m = true →
  ids_of_json (JObject [("banque"%string, json_of_id b);
                        ("marchandises"%string, json_of_id m)])
  = Some {| ids_banque := b; ids_marchandises := m |}.
Proof.
  intros Hb Hm. unfold ids_of_json, dict_of_fields. simpl. lookup_field. simpl.
  by rewrite !id_of_json_of_id.
Qed.

Lemma json_load_dump d : doc_fits d = true → json_load (json_dump d) = Some d.
Proof.
  intros (Hp & Hs & Hm & Hb & Hmi)%doc_fits_true.
  destruct d as [p s m [b mi]]. unfold json_load, json_dump, dict_of_fields. simpl in *.
  lookup_field. simpl. rewrite Hp, Hs. simpl.
  rewrite stock_of_json_of_stock by done. simpl.
  by rewrite ids_of_json_of_ids.
Qed.



Lemma crates_and_boxes_fits : doc_fits crates_and_boxes = true.
Proof. vm_compute. reflexivity. Defined.


(** ** Permission *)

(** C9: [is_user_allowed] accepts a user exactly when the id is on the id
    list or the string [name#discriminator] is on the name list: its result
    is the disjunction of the two membership tests, for every user and
    whatever the two lists are.  With the configured lists, where the id
    list is not empty, a user whose id is not listed is accepted by name. *)
Theorem C9_id_or_name (ids : list Z) (names : list string) (u : member) :
  user_allowed_in ids names u
  = bool_decide (member_id u ∈ ids) || bool_decide (name_discrim u ∈ names)
  ∧ (user_allowed_in ids names u = true
     ↔ member_id u ∈ ids ∨ name_discrim u ∈ names)
  ∧ (is_user_allowed u = true
     ↔ member_id u ∈ ALLOWED_USER_IDS ∨ name_discrim u ∈ ALLOWED_USER_NAMES)
  ∧ name_discrim u = (member_name u +:+ "#" +:+ member_discriminator u)%string
  ∧ ALLOWED_USER_IDS ≠ []
  ∧ (member_id legacy_alpha_4 ∉ ALLOWED_USER_IDS)
  ∧ is_user_allowed legacy_alpha_4 = true.
Proof.
  assert (∀ l n, user_allowed_in l n u
            = bool_decide (member_id u ∈ l) || bool_decide (name_discrim u ∈ n)) as Hor.
  { intros l n. unfold user_allowed_in. by repeat case_bool_decide. }
  assert (∀ l n, user_allowed_in l n u = true
            ↔ member_id u ∈ l ∨ name_discrim u ∈ n) as Hiff.
  { intros l n. rewrite Hor, orb_true_iff, !bool_decide_eq_true. tauto. }
  split; [apply Hor|]. split; [apply Hiff|]. split; [apply Hiff|].
  split; [reflexivity|]. split; [done|]. split; [|reflexivity].
  unfold ALLOWED_USER_IDS. rewrite !elem_of_cons, elem_of_nil. simpl. lia.
Qed.

(** ** Non-negative values *)

Lemma non_negative_insert nom v d :
  non_negative d → 0 ≤ v →
  non_negative (set_marchandises (<[nom := v]> (marchandises d)) d).
Proof.
  intros (Hp & Hs & Hm) Hv. repeat split; simpl; [done..|].
  intros n q [[_ <-]|[_ Hq]]%lookup_insert_Some; eauto.
Qed.

Lemma updated_non_negative c d :
  non_negative d → ¬ driven_below_zero c d → non_negative (updated c d).
Proof.
  intros Hd Hc. pose proof Hd as (Hp & Hs & Hm).
  destruct c; simpl in *; repeat case_match;
    try done; try (repeat split; simpl; [lia..|done]);
    try (apply non_negative_insert; [done|lia]).
  - repeat split; simpl; [done..|].
    intros n q [_ Hq]%lookup_delete_Some. eauto.
  - apply non_negative_insert; [done|].
    destruct (decide (0 ≤ z + quantite)); [done|]. destruct Hc. exists z. split; [done|lia].
  - repeat split; simpl; [done..|].
    intros n q (v & -> & _)%lookup_fmap_Some. lia.
Qed.

Lemma updated_driven_below_zero c d :
  driven_below_zero c d → ¬ non_negative (updated c d).
Proof.
  destruct c; simpl; try done.
  - intros Hlt (Hp & _). simpl in Hp. lia.
  - intros Hlt (_ & Hs & _). simpl in Hs. lia.
  - intros (q & Hq & Hlt) (_ & _ & Hm). rewrite Hq in Hm. simpl in Hm.
    specialize (Hm nom (q + quantite)). rewrite lookup_insert_eq in Hm.
    specialize (Hm eq_refl). lia.
Qed.

Lemma adds_non_negative_not_driven c i d :
  non_negative d → adds_non_negative (Call c i) → ¬ driven_below_zero c d.
Proof.
  intros (Hp & Hs & Hm) Ha. destruct c; simpl in *; try tauto; try lia.
  intros (q & Hq & Hlt). apply Hm in Hq. lia.
Qed.

Lemma step_non_negative e w :
  non_negative (DATA w) → adds_non_negative e → non_negative (DATA (step w e)).
Proof.
  intros Hw He. destruct e as [now|c i]; simpl.
  - destruct (on_ready_balances now w) as (Hp & Hs & Hm).
    unfold non_negative. by rewrite Hp, Hs, Hm.
  - destruct (accepted_dec i) as [Hi|Hn]; [|by rewrite DATA_handle_rejected].
    rewrite DATA_handle_accepted by done.
    apply updated_non_negative; [done|]. by eapply adds_non_negative_not_driven.
Qed.

Lemma run_non_negative es w :
  non_negative (DATA w) → Forall adds_non_negative es → non_negative (DATA (run es w)).
Proof.
  intros Hw Hes. revert w Hw.
  induction Hes as [|e es He _ IH]; intros w Hw; [done|].
  apply IH. by apply step_non_negative.
Qed.

Lemma start_first_run_non_negative g w : start None g = Some w → non_negative (DATA w).
Proof.
  intros [= <-]. repeat split; simpl; [done..|]. intros n q. by rewrite lookup_empty.
Qed.

Lemma first_run_reachable : reachable first_run.
Proof. by exists four_channels, first_run, []. Qed.

(** C1, as stated, fails: at the first run, an accepted [propre_in] of -5
    is not clamped and leaves a clean balance of -5. *)
Lemma C1_negative_in_counterexample :
  reachable first_run
  ∧ accepted from_cmds
  ∧ propre (DATA (propre_in from_cmds (-5) first_run)) = -5
  ∧ ¬ non_negative (DATA (propre_in from_cmds (-5) first_run)).
Proof.
  split; [exact first_run_reachable|].
  split; [exact from_cmds_accepted|]. split; [reflexivity|].
  intros (Hp & _). vm_compute in Hp. by apply Hp.
Qed.

(** C1, amended: from a document whose balances and quantities are
    non-negative, an accepted command leaves them non-negative unless it is
    an in command whose amount takes its value below zero, and then it does
    not: the out commands clamp at zero and the resets give zero for every
    integer amount, the in commands add without clamping.  So every
    document of a run that begins without [data.json] and whose in commands
    have non-negative amounts is non-negative. *)
Theorem C1_non_negative_unless_negative_in :
  (∀ c i w, accepted i → non_negative (DATA w) →
     (non_negative (DATA (handle c i w)) ↔ ¬ driven_below_zero c (DATA w)))
  ∧ (∀ g w0 es, start None g = Some w0 → Forall adds_non_negative es →
       non_negative (DATA (run es w0))).
Proof.
  split.
  - intros c i w Hi Hw. rewrite DATA_handle_accepted by done. split.
    + intros Hafter Hdriven. by apply (updated_driven_below_zero c (DATA w)).
    + by apply updated_non_negative.
  - intros g w0 es Hstart Hes. apply run_non_negative; [|done].
    by eapply start_first_run_non_negative.
Qed.

Lemma stocked_non_negative : non_negative (DATA stocked).
Proof.
  repeat split; simpl; [done..|]. intros n q Hq.
  apply lookup_insert_Some in Hq as [[_ <-]|[_ Hq]]; [lia|].
  apply lookup_singleton_Some in Hq as [_ <-]. lia.
Qed.

Lemma C1_non_negative_unless_negative_in_witness :
  accepted from_cmds
  ∧ non_negative (DATA stocked)
  ∧ non_negative (DATA (handle (MarchandiseOut "boxes" (-4)) from_cmds stocked))
  ∧ non_negative (DATA (handle (PropreIn (-2)) from_cmds
                          (handle (PropreIn 2) from_cmds stocked)))
  ∧ non_negative
      (DATA (run [Ready 1; Call (PropreIn 500) from_cmds; Call (PropreOut 700) stranger;
                  Call (PropreOut 700) from_cmds] first_run)).
Proof.
  destruct C1_non_negative_unless_negative_in as [Hstep Hrun].
  split; [exact from_cmds_accepted|]. split; [exact stocked_non_negative|].
  split; [|split].
  - apply (Hstep (MarchandiseOut "boxes" (-4)) from_cmds stocked
             from_cmds_accepted stocked_non_negative). simpl. tauto.
  - apply (Hstep (PropreIn (-2)) from_cmds (handle (PropreIn 2) from_cmds stocked)
             from_cmds_accepted).
    + apply (Hstep (PropreIn 2) from_cmds stocked from_cmds_accepted stocked_non_negative).
      simpl. lia.
    + vm_compute. discriminate.
  - apply (Hrun four_channels first_run); [reflexivity|].
    repeat constructor; simpl; lia.
Defined.

(** ** The file follows the document *)

Lemma handle_in_sync c i w : in_sync w → in_sync (handle c i w).
Proof.
  intros Hw. destruct (accepted_dec i) as [Hi|Hn]; [|by rewrite handle_rejected].
  unfold in_sync.
  destruct c; handler_unfold; rewrite check_accepted by done; simpl;
    try destruct (marchandises (DATA w) !! nom) eqn:Hnom; simpl;
    by autorewrite with ledger.
Qed.

Lemma ensure_status_messages_in_sync w :
  in_sync w → in_sync (ensure_status_messages w).2.
Proof. unfold ensure_status_messages, in_sync. by repeat case_match; simplify_eq/=. Qed.

Lemma on_ready_in_sync now w : in_sync w → in_sync (on_ready now w).
Proof.
  intros Hw%ensure_status_messages_in_sync. unfold on_ready.
  destruct (ensure_status_messages w) as [[banque_msg march_msg] w'].
  by repeat case_match.
Qed.

Lemma run_in_sync es w : in_sync w → in_sync (run es w).
Proof.
  revert w. induction es as [|e es IH]; intros w Hw; [done|].
  apply IH. destruct e; simpl; [by apply on_ready_in_sync | by apply handle_in_sync].
Qed.

(** ** Scenarios *)

Example crates_in_10_out_15 :
  let w1 := new_marchandise from_cmds "crates" first_run in
  let w2 := marchandise_in from_cmds "crates" 10 w1 in
  let w3 := marchandise_out from_cmds "crates" 15 w2 in
  marchandises (DATA w1) !! "crates"%string = Some 0
  ∧ marchandises (DATA w2) !! "crates"%string = Some 10
  ∧ marchandises (DATA w3) !! "crates"%string = Some 0.
Proof. repeat split; reflexivity. Qed.

Example history_of_a_run :
  let w := run [Call (PropreIn 500) from_cmds; Call (NewMarchandise "crates") from_cmds;
                Call (NewMarchandise "crates") from_cmds; Call (SaleIn 1) stranger]
             first_run in
  (ch_messages <$> get_channel_by_name (guild w) CHANNEL_HISTORY)
  = Some [(1, HistoryLine 0 alpha_1 (PropreIn 500));
          (2, HistoryLine 0 alpha_1 (NewMarchandise "crates"))]
  ∧ responses w
    = [Acknowledged (PropreIn 500); Acknowledged (NewMarchandise "crates");
       AlreadyExists "crates"; NotAuthorized].
Proof. split; reflexivity. Qed.

(** * Further properties *)

(** ** Commands that apply and commands that do not *)

Lemma responses_post_history line w : responses (post_history line w) = responses w.
Proof. apply post_history_ledger. Qed.

Lemma responses_refresh_if_set now w : responses (refresh_if_set now w) = responses w.
Proof. apply refresh_if_set_ledger. Qed.

Lemma responses_refresh now w : responses (refresh now w) = responses w.
Proof. apply refresh_ledger. Qed.

#[local] Hint Rewrite responses_post_history responses_refresh_if_set responses_refresh
  : ledger.

Lemma performed_dec c d : performed c d ∨ ¬ performed c d.
Proof.
  destruct c; simpl; auto; destruct (marchandises d !! nom) eqn:Hnom; auto;
    right; by intros [? ?].
Qed.

Lemma handle_refused c i w :
  accepted i → ¬ performed c (DATA w) → handle c i w = send_message (refusal c) w.
Proof.
  intros Hi Hc. destruct c; simpl in Hc; try tauto;
    handler_unfold; rewrite check_accepted by done; simpl;
    destruct (marchandises (DATA w) !! nom) eqn:Hnom; try done; destruct Hc; eauto.
Qed.

Lemma handle_performed c i w :
  accepted i → performed c (DATA w) →
  data_file (handle c i w) = Some (Json (json_dump (updated c (DATA w))))
  ∧ responses (handle c i w) = responses w ++ [Acknowledged c].
Proof.
  intros Hi Hc. destruct c; simpl in Hc;
    handler_unfold; rewrite check_accepted by done; simpl;
    try destruct (marchandises (DATA w) !! nom) eqn:Hnom; simpl;
    try (by destruct Hc); autorewrite with ledger; done.
Qed.

(** X1: an accepted item command that does not apply (the name of a
    [new_marchandise] exists, the name of [delete_marchandise],
    [marchandise_in], [marchandise_out] or [clean_marchandise] does not)
    only sends its warning: the document, the file and every channel are as
    before. *)
Theorem refused_is_noop (c : command) (i : interaction) (w : world) :
  accepted i → ¬ performed c (DATA w) →
  only_replied (refusal c) w (handle c i w).
Proof. intros Hi Hc. rewrite handle_refused by done. apply only_replied_send. Qed.

Lemma refused_is_noop_witness :
  only_replied (DoesNotExist "barrels") stocked
    (handle (MarchandiseOut "barrels" 2) from_cmds stocked)
  ∧ only_replied (DoesNotExist "barrels") stocked
      (handle (CleanMarchandise "barrels") from_cmds stocked).
Proof.
  split.
  - apply (refused_is_noop (MarchandiseOut "barrels" 2) from_cmds stocked from_cmds_accepted).
    simpl. intros [q Hq]. vm_compute in Hq. discriminate.
  - apply (refused_is_noop (CleanMarchandise "barrels") from_cmds stocked from_cmds_accepted).
    simpl. intros [q Hq]. vm_compute in Hq. discriminate.
Defined.




(** ** Items *)





(** X6: an accepted [marchandise_out] on an item of quantity [q] leaves it
    at [max 0 (q - quantite)] and every other item as it is; taking out
    more than there is leaves 0. *)
Theorem marchandise_out_clamps (i : interaction) (nom : string) (quantite q : Z)
    (w : world) :
  accepted i → marchandises (DATA w) !! nom = Some q →
  marchandises (DATA (marchandise_out i nom quantite w)) !! nom
  = Some (Z.max 0 (q - quantite))
  ∧ (∀ n, n ≠ nom →
       marchandises (DATA (marchandise_out i nom quantite w)) !! n
       = marchandises (DATA w) !! n)
  ∧ (q ≤ quantite →
     marchandises (DATA (marchandise_out i nom quantite w)) !! nom = Some 0).
Proof.
  intros Hi Hq.
  change (marchandise_out i nom quantite w) with (handle (MarchandiseOut nom quantite) i w).
  rewrite DATA_handle_accepted by done. simpl. rewrite Hq. simpl.
  rewrite lookup_insert_eq. split; [done|]. split.
  - intros n Hn. by rewrite lookup_insert_ne.
  - intros Hle. f_equal. lia.
Qed.

Lemma marchandise_out_clamps_witness :
  marchandises (DATA (marchandise_out from_cmds "crates" 15 stocked)) !! "crates"%string
  = Some 0.
Proof.
  destruct (marchandise_out_clamps from_cmds "crates" 15 10 stocked from_cmds_accepted)
    as (_ & _ & Hzero); [reflexivity|].
  apply Hzero. lia.
Defined.

Lemma dom_insert_present (m : gmap string Z) k v v' :
  m !! k = Some v → dom (<[k := v']> m) = dom m.
Proof.
  intros Hk%elem_of_dom_2. rewrite dom_insert_L. apply set_eq. intros x.
  rewrite elem_of_union, elem_of_singleton. split; [by intros [->|?] | auto].
Qed.

Lemma dom_delete_absent (m : gmap string Z) k : m !! k = None → dom m = dom m ∖ {[k]}.
Proof.
  intros Hk%not_elem_of_dom. apply set_eq. intros x.
  rewrite elem_of_difference, elem_of_singleton. split; [|tauto].
  intros Hx. split; [done|]. by intros ->.
Qed.

(** X7: only [new_marchandise] and [delete_marchandise] change which items
    there are: every other command leaves the set of item names as it is,
    an accepted [new_marchandise] adds its name and an accepted
    [delete_marchandise] removes its name. *)
Theorem item_names (c : command) (i : interaction) (nom : string) (w : world) :
  (keeps_names c →
   dom (marchandises (DATA (handle c i w))) = dom (marchandises (DATA w)))
  ∧ (accepted i →
     dom (marchandises (DATA (new_marchandise i nom w)))
     = {[nom]} ∪ dom (marchandises (DATA w)))
  ∧ (accepted i →
     dom (marchandises (DATA (delete_marchandise i nom w)))
     = dom (marchandises (DATA w)) ∖ {[nom]}).
Proof.
  split; [|split].
  - intros Hc. destruct (accepted_dec i) as [Hi|Hn]; [|by rewrite DATA_handle_rejected].
    rewrite DATA_handle_accepted by done.
    destruct c; simpl in *; try done;
      try (destruct (marchandises (DATA w) !! nom0) eqn:Hnom; simpl; [|done];
           by eapply dom_insert_present).
    apply dom_fmap_L.
  - intros Hi. change (new_marchandise i nom w) with (handle (NewMarchandise nom) i w).
    rewrite DATA_handle_accepted by done. simpl.
    destruct (marchandises (DATA w) !! nom) eqn:Hnom; simpl.
    + rewrite <- (dom_insert_L (marchandises (DATA w)) nom 0).
      symmetry. by eapply dom_insert_present.
    + apply dom_insert_L.
  - intros Hi. change (delete_marchandise i nom w) with (handle (DeleteMarchandise nom) i w).
    rewrite DATA_handle_accepted by done. simpl.
    destruct (marchandises (DATA w) !! nom) eqn:Hnom; simpl.
    + apply dom_delete_L.
    + by apply dom_delete_absent.
Qed.

Lemma item_names_witness :
  dom (marchandises (DATA (handle (MarchandiseOut "crates" 50) from_cmds stocked)))
  = dom (marchandises (DATA stocked))
  ∧ dom (marchandises (DATA (new_marchandise from_cmds "barrels" stocked)))
    = {[ "barrels"%string ]} ∪ dom (marchandises (DATA stocked)).
Proof.
  destruct (item_names (MarchandiseOut "crates" 50) from_cmds "barrels" stocked)
    as (Hsame & Hnew & _).
  split; [apply Hsame; exact I | apply Hnew; exact from_cmds_accepted].
Defined.

(** ** How commands compose *)

(** X8: an accepted in of an amount followed by an accepted out of the
    same amount gives back a non-negative balance, for the clean and for the
    dirty money; an out followed by an in of the same amount [a] leaves
    [max a b] in place of [b], so the balance comes back only when it
    covered the amount. *)
Theorem in_and_out (i j : interaction) (a : Z) (w : world) :
  accepted i → accepted j →
  (0 ≤ propre (DATA w) →
   propre (DATA (propre_out j a (propre_in i a w))) = propre (DATA w))
  ∧ (0 ≤ sale (DATA w) →
     sale (DATA (sale_out j a (sale_in i a w))) = sale (DATA w))
  ∧ propre (DATA (propre_in j a (propre_out i a w))) = Z.max a (propre (DATA w))
  ∧ sale (DATA (sale_in j a (sale_out i a w))) = Z.max a (sale (DATA w)).
Proof.
  intros Hi Hj.
  change (propre_out j a (propre_in i a w))
    with (handle (PropreOut a) j (handle (PropreIn a) i w)).
  change (sale_out j a (sale_in i a w)) with (handle (SaleOut a) j (handle (SaleIn a) i w)).
  change (propre_in j a (propre_out i a w))
    with (handle (PropreIn a) j (handle (PropreOut a) i w)).
  change (sale_in j a (sale_out i a w)) with (handle (SaleIn a) j (handle (SaleOut a) i w)).
  rewrite !DATA_handle_accepted by done. simpl. repeat split; lia.
Qed.

Lemma in_and_out_witness :
  propre (DATA (propre_in from_cmds 700 (propre_out from_cmds 700 first_run))) = 700.
Proof.
  apply (in_and_out from_cmds from_cmds 700 first_run from_cmds_accepted from_cmds_accepted).
Defined.

(** X9: an accepted [new_marchandise] of a new name followed by an accepted
    [delete_marchandise] of it gives back the document; an accepted
    [delete_marchandise] followed by [new_marchandise] keeps the name but
    loses the quantity: the item is back at 0. *)
Theorem new_and_delete (i j : interaction) (nom : string) (w : world) :
  accepted i → accepted j →
  (marchandises (DATA w) !! nom = None →
   DATA (delete_marchandise j nom (new_marchandise i nom w)) = DATA w)
  ∧ (is_Some (marchandises (DATA w) !! nom) →
     marchandises (DATA (new_marchandise j nom (delete_marchandise i nom w)))
     = <[nom := 0]> (marchandises (DATA w))).
Proof.
  intros Hi Hj.
  change (delete_marchandise j nom (new_marchandise i nom w))
    with (handle (DeleteMarchandise nom) j (handle (NewMarchandise nom) i w)).
  change (new_marchandise j nom (delete_marchandise i nom w))
    with (handle (NewMarchandise nom) j (handle (DeleteMarchandise nom) i w)).
  rewrite !DATA_handle_accepted by done. split.
  - intros Hnone. simpl. rewrite Hnone. simpl. rewrite lookup_insert_eq. simpl.
    destruct (DATA w) as [p s m ids]. unfold set_marchandises. simpl in *.
    f_equal. rewrite delete_insert_eq. by apply delete_id.
  - intros [q Hq]. simpl. rewrite Hq. simpl. rewrite lookup_delete_eq. simpl.
    apply insert_delete_eq.
Qed.

Lemma new_and_delete_witness :
  DATA (delete_marchandise from_cmds "barrels" (new_marchandise from_cmds "barrels" stocked))
  = DATA stocked
  ∧ marchandises
      (DATA (new_marchandise from_cmds "crates" (delete_marchandise from_cmds "crates" stocked)))
    !! "crates"%string = Some 0.
Proof.
  destruct (new_and_delete from_cmds from_cmds "barrels" stocked
              from_cmds_accepted from_cmds_accepted) as [Hback _].
  destruct (new_and_delete from_cmds from_cmds "crates" stocked
              from_cmds_accepted from_cmds_accepted) as [_ Hzero].
  split; [apply Hback; reflexivity|].
  rewrite Hzero; [reflexivity | exists 10; reflexivity].
Defined.

(** ** Callers that are turned away *)

(** X10: whatever commands are invoked by callers whom the access check
    turns away, and however many, the document, the file and every channel
    stay as they are; each invocation gets one reply. *)
Theorem turned_away_changes_nothing (es : list event) (w : world) :
  Forall turned_away es →
  DATA (run es w) = DATA w ∧ data_file (run es w) = data_file w
  ∧ guild (run es w) = guild w
  ∧ length (responses (run es w)) = (length (responses w) + length es)%nat.
Proof.
  intros Hes. revert w. induction Hes as [|e es He _ IH]; intros w.
  - simpl. repeat split; lia.
  - destruct e as [now|c i]; [done|]. simpl in He.
    change (run (Call c i :: es) w) with (run es (handle c i w)).
    destruct (IH (handle c i w)) as (HD & Hf & Hg & Hr).
    rewrite HD, Hf, Hg, Hr, handle_rejected by done. simpl.
    rewrite length_app. simpl. repeat split; lia.
Qed.

Lemma turned_away_changes_nothing_witness :
  DATA (run [Call CleanPropre stranger; Call (DeleteMarchandise "crates") stranger] stocked)
  = DATA stocked.
Proof.
  apply (turned_away_changes_nothing
           [Call CleanPropre stranger; Call (DeleteMarchandise "crates") stranger] stocked).
  repeat constructor; simpl; intros [Hu _]; vm_compute in Hu; discriminate.
Defined.

(** ** Channels *)

(** X11: [get_channel_by_name] returns the first channel of the guild that
    has the name, and [None] exactly when no channel has it. *)
Theorem get_channel_by_name_first (g : list text_channel) (name : string) :
  (∀ ch, get_channel_by_name g name = Some ch
         ↔ ∃ g1 g2, g = g1 ++ ch :: g2 ∧ ch_name ch = name
                    ∧ Forall (λ ch', ch_name ch' ≠ name) g1)
  ∧ (get_channel_by_name g name = None ↔ Forall (λ ch', ch_name ch' ≠ name) g).
Proof.
  induction g as [|ch0 g [IHsome IHnone]]; simpl.
  - split; [|done]. intros ch. split; [done|].
    intros (g1 & g2 & Hg & _). by destruct g1.
  - destruct (decide (ch_name ch0 = name)) as [Heq|Hne].
    + split.
      * intros ch. split.
        -- intros [= <-]. by exists [], g.
        -- intros (g1 & g2 & Hg & Hname & Hg1). destruct g1 as [|ch1 g1].
           ++ by injection Hg as ->.
           ++ injection Hg as -> _. by apply Forall_cons_1 in Hg1 as [? _].
      * split; [done|]. by intros [? _]%Forall_cons_1.
    + split.
      * intros ch. rewrite IHsome. split.
        -- intros (g1 & g2 & -> & Hname & Hg1). exists (ch0 :: g1), g2. by repeat constructor.
        -- intros (g1 & g2 & Hg & Hname & Hg1). destruct g1 as [|ch1 g1].
           ++ injection Hg as -> _. congruence.
           ++ injection Hg as -> ->. apply Forall_cons_1 in Hg1 as [_ Hg1]. by exists g1, g2.
      * rewrite IHnone. split; [by constructor | by intros [_ ?]%Forall_cons_1].
Qed.

Lemma get_on_channel_eq name f g :
  (∀ ch, ch_name (f ch) = ch_name ch) →
  get_channel_by_name (on_channel name f g) name = f <$> get_channel_by_name g name.
Proof.
  intros Hf. induction g as [|ch g IH]; simpl; [done|].
  destruct (decide (ch_name ch = name)) as [Heq|Hne]; simpl.
  - by rewrite decide_True by (by rewrite Hf).
  - by rewrite decide_False.
Qed.

Lemma get_on_channel_ne name name' f g :
  name ≠ name' → (∀ ch, ch_name (f ch) = ch_name ch) →
  get_channel_by_name (on_channel name f g) name' = get_channel_by_name g name'.
Proof.
  intros Hne Hf. induction g as [|ch g IH]; simpl; [done|].
  destruct (decide (ch_name ch = name)) as [Heq|Hne']; simpl.
  - rewrite Hf. by rewrite !decide_False by congruence.
  - by rewrite IH.
Qed.

Lemma on_channel_names name f g :
  (∀ ch, ch_name (f ch) = ch_name ch) →
  ch_name <$> on_channel name f g = ch_name <$> g.
Proof.
  intros Hf. induction g as [|ch g IH]; [done|]. cbn [on_channel].
  destruct (decide (ch_name ch = name)); rewrite !fmap_cons; by rewrite ?Hf, ?IH.
Qed.

Lemma on_channel_comm name name' f f' g :
  name ≠ name' →
  (∀ ch, ch_name (f ch) = ch_name ch) → (∀ ch, ch_name (f' ch) = ch_name ch) →
  on_channel name f (on_channel name' f' g) = on_channel name' f' (on_channel name f g).
Proof.
  intros Hne Hf Hf'. induction g as [|ch g IH]; simpl; [done|].
  destruct (decide (ch_name ch = name')) as [Heq'|Hne'];
    destruct (decide (ch_name ch = name)) as [Heq|Hne'']; simpl.
  - congruence.
  - by rewrite Hf', decide_False, decide_True by congruence.
  - by rewrite Hf, decide_True, decide_False by congruence.
  - by rewrite !decide_False, IH by done.
Qed.

Lemma on_channel_twice name f g :
  (∀ ch, ch_name (f ch) = ch_name ch) → (∀ ch, f (f ch) = f ch) →
  on_channel name f (on_channel name f g) = on_channel name f g.
Proof.
  intros Hf Hff. induction g as [|ch g IH]; simpl; [done|].
  destruct (decide (ch_name ch = name)) as [Heq|Hne]; simpl.
  - by rewrite decide_True, Hff by (by rewrite Hf).
  - by rewrite decide_False, IH.
Qed.

Lemma edit_ids msg c ch : (ch_messages (edit msg c ch)).*1 = (ch_messages ch).*1.
Proof.
  unfold edit. simpl. rewrite <- list_fmap_compose. apply list_fmap_ext.
  intros k [k' c'] _. simpl. by destruct (decide (k' = msg)).
Qed.

Lemma edit_reads msg c ch c' : (msg, c') ∈ ch_messages (edit msg c ch) → c' = c.
Proof.
  unfold edit. simpl. intros ([k c0] & Heq & _)%list_elem_of_fmap. simpl in Heq.
  destruct (decide (k = msg)); congruence.
Qed.

Lemma edit_twice msg c ch : edit msg c (edit msg c ch) = edit msg c ch.
Proof.
  unfold edit. simpl. f_equal. rewrite <- list_fmap_compose. apply list_fmap_ext.
  intros k [k' c'] _. simpl.
  destruct (decide (k' = msg)) as [->|Hne]; simpl;
    [by rewrite decide_True | by rewrite decide_False].
Qed.

(** ** The history *)

Lemma send_name c ch : ch_name (send c ch) = ch_name ch.
Proof. reflexivity. Qed.

Lemma edit_name msg c ch : ch_name (edit msg c ch) = ch_name ch.
Proof. reflexivity. Qed.

Lemma history_update_status_messages now b m data w :
  history (update_status_messages now b m data w) = history w.
Proof.
  unfold history, update_status_messages. simpl.
  by rewrite !get_on_channel_ne by (done || apply edit_name).
Qed.

Lemma history_refresh_if_set now w : history (refresh_if_set now w) = history w.
Proof.
  unfold refresh_if_set. repeat case_match; try done.
  apply history_update_status_messages.
Qed.

Lemma history_refresh now w : history (refresh now w) = history w.
Proof.
  unfold refresh. repeat case_match; try done.
  apply history_update_status_messages.
Qed.

Lemma history_post_history line w :
  history (post_history line w)
  = (λ ch, ch_messages ch ++ [(next_id ch, line)])
      <$> get_channel_by_name (guild w) CHANNEL_HISTORY.
Proof.
  unfold history, post_history.
  destruct (get_channel_by_name (guild w) CHANNEL_HISTORY) as [ch|] eqn:Hch; simpl.
  - rewrite get_on_channel_eq by apply send_name. by rewrite Hch.
  - by rewrite Hch.
Qed.

Lemma handle_performed_guild c i w :
  accepted i → performed c (DATA w) →
  ∃ w1, guild w1 = guild w ∧ DATA w1 = updated c (DATA w)
    ∧ (handle c i w
       = refresh_if_set (utcnow i) (post_history (HistoryLine (utcnow i) (user i) c) w1)
       ∨ handle c i w
         = refresh (utcnow i) (post_history (HistoryLine (utcnow i) (user i) c) w1)).
Proof.
  intros Hi Hc. destruct c; simpl in Hc;
    handler_unfold; rewrite check_accepted by done; simpl;
    try (destruct (marchandises (DATA w) !! nom) eqn:Hnom; simpl;
         try discriminate; try (by destruct Hc));
    eexists; (split; [|split; [|(left; reflexivity) || (right; reflexivity)]]); done.
Qed.

Lemma history_performed c i w :
  accepted i → performed c (DATA w) →
  history (handle c i w)
  = (λ ch, ch_messages ch ++ [(next_id ch, HistoryLine (utcnow i) (user i) c)])
      <$> get_channel_by_name (guild w) CHANNEL_HISTORY.
Proof.
  intros Hi Hc.
  destruct (handle_performed_guild c i w Hi Hc) as (w1 & Hg & _ & [-> | ->]).
  - by rewrite history_refresh_if_set, history_post_history, Hg.
  - by rewrite history_refresh, history_post_history, Hg.
Qed.



Lemma history_ensure_status_messages w :
  history (ensure_status_messages w).2 = history w.
Proof.
  unfold ensure_status_messages, history.
  repeat case_match; simplify_eq/=;
    by rewrite ?get_on_channel_ne by (done || apply send_name).
Qed.

Lemma history_on_ready now w : history (on_ready now w) = history w.
Proof.
  unfold on_ready. pose proof (history_ensure_status_messages w) as H.
  destruct (ensure_status_messages w) as [[banque_msg march_msg] w'].
  repeat case_match; try done. by rewrite history_update_status_messages.
Qed.

Lemma history_step e w :
  ∃ more, history (step w e) = (λ ms, ms ++ more) <$> history w.
Proof.
  destruct e as [now|c i]; simpl.
  - exists []. rewrite history_on_ready. destruct (history w); simpl; by rewrite ?app_nil_r.
  - destruct (accepted_dec i) as [Hi|Hn].
    + destruct (performed_dec c (DATA w)) as [Hc|Hc].
      * rewrite history_performed by done. unfold history.
        destruct (get_channel_by_name (guild w) CHANNEL_HISTORY) as [ch|]; [|by exists []].
        by eexists.
      * exists []. rewrite handle_refused by done. unfold history. simpl.
        destruct (get_channel_by_name _ _); simpl; by rewrite ?app_nil_r.
    + exists []. rewrite handle_rejected by done. unfold history. simpl.
      destruct (get_channel_by_name _ _); simpl; by rewrite ?app_nil_r.
Qed.

(** X13: the history only grows: whatever happens, the messages that the
    history channel had are still there, unchanged and in their place,
    before the lines that were added; and no history channel appears in a
    guild that has none. *)
Theorem history_only_grows (es : list event) (w : world) :
  ∃ more, history (run es w) = (λ ms, ms ++ more) <$> history w.
Proof.
  revert w. induction es as [|e es IH]; intros w.
  - exists []. simpl. destruct (history w); simpl; by rewrite ?app_nil_r.
  - change (run (e :: es) w) with (run es (step w e)).
    destruct (IH (step w e)) as [more2 ->]. destruct (history_step e w) as [more1 ->].
    exists (more1 ++ more2). destruct (history w); simpl; by rewrite ?app_assoc.
Qed.

(** ** The status messages *)

Lemma next_id_positive ch : 0 < next_id ch.
Proof.
  unfold next_id. assert (0 ≤ foldr Z.max 0 (ch_messages ch).*1); [|lia].
  induction (ch_messages ch).*1 as [|k l IH]; simpl; lia.
Qed.

Lemma fetch_if_set_present g name id msg :
  fetch_if_set g name id = Some msg ↔ id = Some msg ∧ present g name msg.
Proof.
  unfold fetch_if_set, present.
  destruct (get_channel_by_name g name) as [ch|]; simpl.
  - destruct id as [k|]; simpl.
    + case_bool_decide as Hzero.
      { split; [done|]. intros [[= ->] [? _]]. done. }
      unfold fetch_message. simpl. case_bool_decide as Hin.
      * split.
        -- intros [= ->]. split; [done|]. split; [done|]. by exists ch.
        -- by intros [[= ->] _].
      * split; [done|]. intros [[= ->] (_ & ch' & [= <-] & ?)]. done.
    + split; [done|]. by intros [? _].
  - split; [done|]. by intros [_ (_ & ch & ? & _)].
Qed.

Lemma fetch_or_none_present g name msg :
  present g name msg → fetch_or_none g name (Some msg) = Some (Some msg).
Proof.
  intros (_ & ch & Hch & Hin). unfold fetch_or_none, fetch_message.
  rewrite Hch. simpl. by rewrite bool_decide_eq_true_2.
Qed.

Lemma present_on_channel_ne name name' f g msg :
  name ≠ name' → (∀ ch, ch_name (f ch) = ch_name ch) →
  present g name' msg → present (on_channel name f g) name' msg.
Proof. intros Hne Hf. unfold present. by rewrite get_on_channel_ne. Qed.

Lemma shows_on_channel_ne name name' f g msg c :
  name ≠ name' → (∀ ch, ch_name (f ch) = ch_name ch) →
  shows g name' msg c → shows (on_channel name f g) name' msg c.
Proof. intros Hne Hf. unfold shows, present. by rewrite get_on_channel_ne. Qed.

Lemma shows_edit name g msg c :
  present g name msg → shows (on_channel name (edit msg c) g) name msg c.
Proof.
  intros (Hmsg & ch & Hch & Hin). unfold shows, present.
  rewrite get_on_channel_eq by apply edit_name. rewrite Hch. simpl. split.
  - split; [done|]. exists (edit msg c ch). by rewrite edit_ids.
  - intros ch' c' [= <-]. apply edit_reads.
Qed.

Lemma update_status_messages_shows now b m data w :
  present (guild w) CHANNEL_BANQUE b → present (guild w) CHANNEL_MARCH m →
  shows (guild (update_status_messages now b m data w)) CHANNEL_BANQUE b
    (EmbedBanque now (propre data) (sale data))
  ∧ shows (guild (update_status_messages now b m data w)) CHANNEL_MARCH m
      (EmbedMarchandises now (marchandises data)).
Proof.
  intros Hb Hm. unfold update_status_messages. simpl. split.
  - apply shows_on_channel_ne; [done | apply edit_name |]. by apply shows_edit.
  - apply shows_edit. apply present_on_channel_ne; [done | apply edit_name | done].
Qed.

Lemma refresh_if_set_present now w b m :
  ids_banque (status_message_ids (DATA w)) = Some b →
  ids_marchandises (status_message_ids (DATA w)) = Some m →
  present (guild w) CHANNEL_BANQUE b → present (guild w) CHANNEL_MARCH m →
  refresh_if_set now w = update_status_messages now b m (DATA w) w.
Proof.
  intros Hb Hm Hpb Hpm. unfold refresh_if_set. rewrite Hb, Hm.
  by rewrite (proj2 (fetch_if_set_present _ _ _ b)), (proj2 (fetch_if_set_present _ _ _ m)).
Qed.

Lemma refresh_present now w b m :
  ids_banque (status_message_ids (DATA w)) = Some b →
  ids_marchandises (status_message_ids (DATA w)) = Some m →
  present (guild w) CHANNEL_BANQUE b → present (guild w) CHANNEL_MARCH m →
  refresh now w = update_status_messages now b m (DATA w) w.
Proof.
  intros Hb Hm Hpb Hpm. unfold refresh. rewrite Hb, Hm.
  by rewrite !fetch_or_none_present.
Qed.

Lemma updated_status_message_ids c d :
  status_message_ids (updated c d) = status_message_ids d.
Proof. destruct c; simpl; by repeat case_match. Qed.

Lemma present_post_history line w name msg :
  name ≠ CHANNEL_HISTORY →
  present (guild w) name msg → present (guild (post_history line w)) name msg.
Proof.
  intros Hne Hp. unfold post_history. case_match; [|done]. simpl.
  apply present_on_channel_ne; [done | apply send_name | done].
Qed.

Lemma mirrored_handle c i w : mirrored w → mirrored (handle c i w).
Proof.
  intros Hw.
  destruct (accepted_dec i) as [Hi|Hn]; [|by rewrite handle_rejected].
  destruct (performed_dec c (DATA w)) as [Hc|Hc]; [|by rewrite handle_refused].
  destruct Hw as (b & m & tb & tm & Hb & Hm & [Hpb _] & [Hpm _]).
  destruct (handle_performed_guild c i w Hi Hc) as (w1 & Hg & HD & Hhandle).
  set (w2 := post_history (HistoryLine (utcnow i) (user i) c) w1) in *.
  assert (DATA w2 = updated c (DATA w)) as HD2 by (by unfold w2; rewrite DATA_post_history).
  assert (present (guild w2) CHANNEL_BANQUE b) as Hpb2.
  { apply present_post_history; [done|]. by rewrite Hg. }
  assert (present (guild w2) CHANNEL_MARCH m) as Hpm2.
  { apply present_post_history; [done|]. by rewrite Hg. }
  assert (handle c i w = update_status_messages (utcnow i) b m (DATA w2) w2) as ->.
  { destruct Hhandle as [-> | ->];
      [apply refresh_if_set_present | apply refresh_present];
      rewrite ?HD2, ?updated_status_message_ids; done. }
  exists b, m, (utcnow i), (utcnow i).
  rewrite update_status_messages_DATA, HD2, updated_status_message_ids.
  split; [done|]. split; [done|]. rewrite <- HD2.
  by apply update_status_messages_shows.
Qed.

Lemma ensure_status_messages_present w b m :
  ids_banque (status_message_ids (DATA w)) = Some b →
  ids_marchandises (status_message_ids (DATA w)) = Some m →
  present (guild w) CHANNEL_BANQUE b → present (guild w) CHANNEL_MARCH m →
  ensure_status_messages w = ((Some b, Some m), w).
Proof.
  intros Hb Hm Hpb Hpm. unfold ensure_status_messages.
  destruct Hpb as (Hb0 & chb & Hchb & Hinb). destruct Hpm as (Hm0 & chm & Hchm & Hinm).
  rewrite Hchb, Hchm, Hb.
  rewrite (proj2 (fetch_if_set_present _ _ _ b)) by (split; [done|]; split; eauto).
  rewrite Hm.
  by rewrite (proj2 (fetch_if_set_present _ _ _ m)) by (split; [done|]; split; eauto).
Qed.

Lemma present_send name g ch c :
  get_channel_by_name g name = Some ch →
  present (on_channel name (send c) g) name (next_id ch).
Proof.
  intros Hch. split; [pose proof (next_id_positive ch); lia|].
  exists (send c ch). rewrite get_on_channel_eq by apply send_name. rewrite Hch. split; [done|].
  unfold send. simpl. rewrite fmap_app. apply elem_of_app. right. simpl. apply list_elem_of_here.
Qed.

Lemma ensure_status_messages_ensures w :
  has_status_channels (guild w) →
  ∃ b m, (ensure_status_messages w).1 = (Some b, Some m)
    ∧ ids_banque (status_message_ids (DATA (ensure_status_messages w).2)) = Some b
    ∧ ids_marchandises (status_message_ids (DATA (ensure_status_messages w).2)) = Some m
    ∧ present (guild (ensure_status_messages w).2) CHANNEL_BANQUE b
    ∧ present (guild (ensure_status_messages w).2) CHANNEL_MARCH m.
Proof.
  intros [[chb Hchb] [chm Hchm]]. unfold ensure_status_messages. rewrite Hchb, Hchm.
  destruct (fetch_if_set (guild w) CHANNEL_BANQUE _) as [b|] eqn:Hfb.
  - apply fetch_if_set_present in Hfb as [Hb Hpb].
    destruct (fetch_if_set (guild w) CHANNEL_MARCH _) as [m|] eqn:Hfm; simpl.
    + apply fetch_if_set_present in Hfm as [Hm Hpm]. by exists b, m.
    + exists b, (next_id chm). split; [done|]. split; [done|]. split; [done|]. split.
      * apply present_on_channel_ne; [done | apply send_name | done].
      * apply (present_send CHANNEL_MARCH (guild w) chm Loading Hchm).
  - simpl.
    assert (get_channel_by_name (on_channel CHANNEL_BANQUE (send Loading) (guild w))
              CHANNEL_MARCH = Some chm) as Hchm'.
    { by rewrite get_on_channel_ne by (done || apply send_name). }
    pose proof (present_send CHANNEL_BANQUE (guild w) chb Loading Hchb) as Hpb.
    destruct (fetch_if_set (on_channel CHANNEL_BANQUE (send Loading) (guild w))
                CHANNEL_MARCH _) as [m|] eqn:Hfm; simpl.
    + apply fetch_if_set_present in Hfm as [Hm Hpm]. by exists (next_id chb), m.
    + exists (next_id chb), (next_id chm). split; [done|]. split; [done|]. split; [done|].
      split.
      * apply present_on_channel_ne; [done | apply send_name | done].
      * apply (present_send CHANNEL_MARCH _ chm Loading Hchm').
Qed.

Lemma on_ready_mirrors now w : has_status_channels (guild w) → mirrored (on_ready now w).
Proof.
  intros Hw. destruct (ensure_status_messages_ensures w Hw) as (b & m & Hr & Hb & Hm & Hpb & Hpm).
  unfold on_ready. destruct (ensure_status_messages w) as [[banque_msg march_msg] w'].
  simpl in *. injection Hr as -> ->.
  exists b, m, now, now. rewrite update_status_messages_DATA.
  split; [done|]. split; [done|]. by apply update_status_messages_shows.
Qed.

Lemma has_status_channels_mirrored w : mirrored w → has_status_channels (guild w).
Proof.
  intros (b & m & _ & _ & _ & _ & [(_ & chb & Hchb & _) _] & [(_ & chm & Hchm & _) _]).
  split; eauto.
Qed.

Lemma mirrored_run es w : mirrored w → mirrored (run es w).
Proof.
  revert w. induction es as [|e es IH]; intros w Hw; [done|].
  apply IH. destruct e as [now|c i]; simpl.
  - by apply on_ready_mirrors, has_status_channels_mirrored.
  - by apply mirrored_handle.
Qed.

Lemma world_eta w :
  {| DATA := DATA w; data_file := data_file w; guild := guild w; responses := responses w |}
  = w.
Proof. by destruct w. Qed.

Lemma in_guild_do_solo f w : in_guild_do f 0 (solo w) = solo (f w).
Proof. unfold in_guild_do, in_guild, solo. simpl. by rewrite world_eta. Qed.

Lemma in_guild_do_solo_elsewhere f k w : in_guild_do f (S k) (solo w) = solo w.
Proof. reflexivity. Qed.

Lemma on_ready_guilds_solo now w : on_ready_guilds now (solo w) = solo (on_ready now w).
Proof. unfold on_ready_guilds. simpl. apply in_guild_do_solo. Qed.

Lemma bot_run_solo es w : bot_run es (solo w) = solo (run (es ≫= solo_event) w).
Proof.
  revert w. induction es as [|e es IH]; intros w; [done|].
  change (bot_run (e :: es) (solo w)) with (bot_run es (bot_step (solo w) e)).
  destruct e as [now|[|k] c i]; simpl.
  - rewrite on_ready_guilds_solo. apply IH.
  - rewrite in_guild_do_solo. apply IH.
  - rewrite in_guild_do_solo_elsewhere. apply IH.
Qed.

Lemma one_guild_solo b g :
  bot_guilds b = [g] →
  b = solo {| DATA := bot_DATA b; data_file := bot_file b; guild := g;
              responses := bot_responses b |}.
Proof. destruct b. simpl. by intros ->. Qed.

Lemma in_guild_solo w : in_guild 0 (solo w) = Some w.
Proof. unfold in_guild, solo. simpl. by rewrite world_eta. Qed.


Lemma first_run_has_status_channels : has_status_channels (guild first_run).
Proof. split; eexists; reflexivity. Defined.


(** With a second guild the shared ids go to the messages of the guild that
    [on_ready] visits last: a command in the first guild then finds no
    status message to refresh there. *)
Example two_guilds_lose_the_status :
  ∃ w, in_guild 0 (bot_run [Calls 0 (PropreIn 500) from_cmds] (on_ready_guilds 1 two_guilds))
       = Some w
    ∧ propre (DATA w) = 500
    ∧ status_message_ids (DATA w) = {| ids_banque := Some 201; ids_marchandises := Some 201 |}
    ∧ get_channel_by_name (guild w) CHANNEL_BANQUE
      = Some {| ch_name := CHANNEL_BANQUE; ch_messages := [(1, EmbedBanque 1 0 0)] |}
    ∧ ¬ mirrored w.
Proof.
  eexists. split; [reflexivity|]. split; [reflexivity|]. split; [reflexivity|].
  split; [reflexivity|].
  intros (b & m & tb & tm & Hb & _ & [(_ & ch & Hch & Hin) _] & _).
  injection Hb as <-. injection Hch as <-. simpl in Hin.
  apply list_elem_of_singleton in Hin. discriminate.
Qed.

Lemma has_status_channels_dec g : has_status_channels g ∨ ¬ has_status_channels g.
Proof.
  unfold has_status_channels.
  destruct (get_channel_by_name g CHANNEL_BANQUE), (get_channel_by_name g CHANNEL_MARCH);
    [left; eauto | right; intros [[? ?] [? ?]]; done..].
Qed.

Lemma ensure_status_messages_without w :
  ¬ has_status_channels (guild w) → ensure_status_messages w = ((None, None), w).
Proof.
  intros Hw. unfold ensure_status_messages.
  destruct (get_channel_by_name (guild w) CHANNEL_BANQUE) eqn:Hb; [|done].
  destruct (get_channel_by_name (guild w) CHANNEL_MARCH) eqn:Hm; [|done].
  destruct Hw. unfold has_status_channels. rewrite Hb, Hm. eauto.
Qed.




(** X17: the two ways the handlers refresh the status messages (the money
    handlers fetch under [if bid:], the other handlers fetch in one [try])
    do the same, as long as no recorded id is 0. *)
Theorem refresh_paths_agree (now : Z) (w : world) :
  ids_banque (status_message_ids (DATA w)) ≠ Some 0 →
  ids_marchandises (status_message_ids (DATA w)) ≠ Some 0 →
  refresh_if_set now w = refresh now w.
Proof.
  intros Hb Hm. unfold refresh_if_set, refresh, fetch_if_set, fetch_or_none, fetch_message.
  destruct (ids_banque (status_message_ids (DATA w))) as [b|],
           (ids_marchandises (status_message_ids (DATA w))) as [m|],
           (get_channel_by_name (guild w) CHANNEL_BANQUE) as [chb|],
           (get_channel_by_name (guild w) CHANNEL_MARCH) as [chm|]; simpl; try done;
    repeat (case_bool_decide; simpl; try done); congruence.
Qed.

Lemma refresh_paths_agree_witness :
  refresh_if_set 2 (on_ready 1 first_run) = refresh 2 (on_ready 1 first_run).
Proof.
  apply (refresh_paths_agree 2 (on_ready 1 first_run)); vm_compute; discriminate.
Defined.

Lemma fetch_message_edit msg c ch id : fetch_message (edit msg c ch) id = fetch_message ch id.
Proof. unfold fetch_message. by rewrite edit_ids. Qed.

Lemma fetch_or_none_edit n msg c g name id :
  fetch_or_none (on_channel n (edit msg c) g) name id = fetch_or_none g name id.
Proof.
  unfold fetch_or_none. destruct (decide (n = name)) as [->|Hne].
  - rewrite get_on_channel_eq by apply edit_name.
    destruct (get_channel_by_name g name); simpl; [|done]. by rewrite fetch_message_edit.
  - by rewrite get_on_channel_ne by (done || apply edit_name).
Qed.

Lemma fetch_if_set_edit n msg c g name id :
  fetch_if_set (on_channel n (edit msg c) g) name id = fetch_if_set g name id.
Proof.
  unfold fetch_if_set. destruct (decide (n = name)) as [->|Hne].
  - rewrite get_on_channel_eq by apply edit_name.
    destruct (get_channel_by_name g name) as [ch|]; simpl; [|done].
    destruct id as [k|]; simpl; [|done]. case_bool_decide; [done|].
    apply (fetch_message_edit msg c ch (Some k)).
  - by rewrite get_on_channel_ne by (done || apply edit_name).
Qed.

Lemma update_status_messages_twice now b m data w :
  update_status_messages now b m data (update_status_messages now b m data w)
  = update_status_messages now b m data w.
Proof.
  unfold update_status_messages, set_guild. simpl. f_equal.
  rewrite (on_channel_comm CHANNEL_BANQUE CHANNEL_MARCH) by (done || apply edit_name).
  rewrite (on_channel_twice CHANNEL_BANQUE) by (apply edit_name || apply edit_twice).
  by rewrite (on_channel_twice CHANNEL_MARCH) by (apply edit_name || apply edit_twice).
Qed.

(** X18: refreshing the status messages twice with the same clock is
    refreshing them once, for both ways of refreshing: the messages are
    overwritten with what the document holds, never added to. *)
Theorem refresh_twice (now : Z) (w : world) :
  refresh now (refresh now w) = refresh now w
  ∧ refresh_if_set now (refresh_if_set now w) = refresh_if_set now w.
Proof.
  split.
  - unfold refresh at 2 3.
    destruct (fetch_or_none (guild w) CHANNEL_BANQUE _ ≫= _) as [[[b|] [m|]]|] eqn:Hf;
      try (unfold refresh; by rewrite Hf).
    unfold refresh. simpl. unfold update_status_messages at 1 2 3. simpl.
    rewrite !fetch_or_none_edit, Hf. apply update_status_messages_twice.
  - unfold refresh_if_set at 2 3.
    destruct (fetch_if_set (guild w) CHANNEL_BANQUE _) as [b|] eqn:Hfb;
      [|unfold refresh_if_set; by rewrite Hfb].
    destruct (fetch_if_set (guild w) CHANNEL_MARCH _) as [m|] eqn:Hfm;
      [|unfold refresh_if_set; by rewrite Hfb, Hfm].
    unfold refresh_if_set. simpl. unfold update_status_messages at 1 2 3 4. simpl.
    rewrite !fetch_if_set_edit, Hfb, Hfm. apply update_status_messages_twice.
Qed.

(** ** What start-up and commands leave alone *)

Lemma responses_ensure_status_messages w :
  responses (ensure_status_messages w).2 = responses w.
Proof. unfold ensure_status_messages. by repeat case_match; simplify_eq/=. Qed.

(** X19: [on_ready] changes neither a balance nor the stock, sends no
    reply and leaves the history as it is, and when the file held the
    document before it holds the document afterwards: start-up only
    touches the status messages and their ids. *)
Theorem on_ready_keeps_ledger (now : Z) (w : world) :
  propre (DATA (on_ready now w)) = propre (DATA w)
  ∧ sale (DATA (on_ready now w)) = sale (DATA w)
  ∧ marchandises (DATA (on_ready now w)) = marchandises (DATA w)
  ∧ responses (on_ready now w) = responses w
  ∧ history (on_ready now w) = history w
  ∧ (in_sync w → in_sync (on_ready now w)).
Proof.
  destruct (on_ready_balances now w) as (Hp & Hs & Hm).
  split; [done|]. split; [done|]. split; [done|].
  split; [|split; [apply history_on_ready | apply on_ready_in_sync]].
  unfold on_ready. pose proof (responses_ensure_status_messages w) as Hr.
  destruct (ensure_status_messages w) as [[banque_msg march_msg] w'].
  by repeat case_match.
Qed.

Lemma on_ready_keeps_ledger_witness :
  marchandises (DATA (on_ready 1 stocked)) = marchandises (DATA stocked)
  ∧ in_sync (on_ready 1 stocked).
Proof.
  destruct (on_ready_keeps_ledger 1 stocked) as (_ & _ & Hstock & _ & _ & Hsync).
  split; [exact Hstock | apply Hsync; reflexivity].
Defined.



Lemma names_update_status_messages now b m data w :
  ch_name <$> guild (update_status_messages now b m data w) = ch_name <$> guild w.
Proof.
  unfold update_status_messages. simpl. by rewrite !on_channel_names by apply edit_name.
Qed.

Lemma names_post_history line w :
  ch_name <$> guild (post_history line w) = ch_name <$> guild w.
Proof.
  unfold post_history. case_match; [|done]. simpl. by rewrite on_channel_names by apply send_name.
Qed.

Lemma names_refresh_if_set now w :
  ch_name <$> guild (refresh_if_set now w) = ch_name <$> guild w.
Proof. unfold refresh_if_set. repeat case_match; try done. apply names_update_status_messages. Qed.

Lemma names_refresh now w : ch_name <$> guild (refresh now w) = ch_name <$> guild w.
Proof. unfold refresh. repeat case_match; try done. apply names_update_status_messages. Qed.

Lemma names_handle c i w : ch_name <$> guild (handle c i w) = ch_name <$> guild w.
Proof.
  destruct (accepted_dec i) as [Hi|Hn]; [|by rewrite handle_rejected].
  destruct (performed_dec c (DATA w)) as [Hc|Hc]; [|by rewrite handle_refused].
  destruct (handle_performed_guild c i w Hi Hc) as (w1 & Hg & _ & [-> | ->]).
  - by rewrite names_refresh_if_set, names_post_history, Hg.
  - by rewrite names_refresh, names_post_history, Hg.
Qed.

Lemma names_ensure_status_messages w :
  ch_name <$> guild (ensure_status_messages w).2 = ch_name <$> guild w.
Proof.
  unfold ensure_status_messages.
  repeat case_match; simplify_eq/=; by rewrite ?on_channel_names by apply send_name.
Qed.

Lemma names_on_ready now w : ch_name <$> guild (on_ready now w) = ch_name <$> guild w.
Proof.
  unfold on_ready. pose proof (names_ensure_status_messages w) as H.
  destruct (ensure_status_messages w) as [[banque_msg march_msg] w'].
  repeat case_match; try done. by rewrite names_update_status_messages.
Qed.

(** X21: the bot creates no channel, removes none and renames none:
    after any run the guild has the channels it had, in their order. *)
Theorem channels_stay (es : list event) (w : world) :
  ch_name <$> guild (run es w) = ch_name <$> guild w.
Proof.
  revert w. induction es as [|e es IH]; intros w; [done|].
  change (run (e :: es) w) with (run es (step w e)). rewrite IH.
  destruct e; [apply names_on_ready | apply names_handle].
Qed.

Lemma message_ids_edit n msg c g name :
  message_ids (on_channel n (edit msg c) g) name = message_ids g name.
Proof.
  unfold message_ids. destruct (decide (n = name)) as [->|Hne].
  - rewrite get_on_channel_eq by apply edit_name.
    destruct (get_channel_by_name g name) as [ch|]; [|done].
    simpl. f_equal. exact (edit_ids msg c ch).
  - by rewrite get_on_channel_ne by (done || apply edit_name).
Qed.

Lemma message_ids_update_status_messages now b m data w name :
  message_ids (guild (update_status_messages now b m data w)) name
  = message_ids (guild w) name.
Proof. unfold update_status_messages. simpl. by rewrite !message_ids_edit. Qed.

Lemma message_ids_post_history line w name :
  name ≠ CHANNEL_HISTORY →
  message_ids (guild (post_history line w)) name = message_ids (guild w) name.
Proof.
  intros Hne. unfold post_history, message_ids. case_match; [|done]. simpl.
  by rewrite get_on_channel_ne by (done || apply send_name).
Qed.

Lemma message_ids_handle c i w name :
  name ≠ CHANNEL_HISTORY →
  message_ids (guild (handle c i w)) name = message_ids (guild w) name.
Proof.
  intros Hne.
  destruct (accepted_dec i) as [Hi|Hn]; [|by rewrite handle_rejected].
  destruct (performed_dec c (DATA w)) as [Hc|Hc]; [|by rewrite handle_refused].
  destruct (handle_performed_guild c i w Hi Hc) as (w1 & Hg & _ & [-> | ->]).
  - unfold refresh_if_set. repeat case_match;
      rewrite ?message_ids_update_status_messages, message_ids_post_history, Hg; done.
  - unfold refresh. repeat case_match;
      rewrite ?message_ids_update_status_messages, message_ids_post_history, Hg; done.
Qed.

(** X22: a command posts in the history channel only: in every other
    channel the messages after the command are the messages before it,
    under the same ids and in the same order (their content may be
    refreshed, none is added and none is removed); and the history channel
    gets at most one message more. *)
Theorem commands_post_to_history_only (c : command) (i : interaction) (w : world)
    (name : string) :
  name ≠ CHANNEL_HISTORY →
  message_ids (guild (handle c i w)) name = message_ids (guild w) name
  ∧ ∃ more, (length more ≤ 1)%nat
      ∧ history (handle c i w) = (λ ms, ms ++ more) <$> history w.
Proof.
  intros Hne. split; [by apply message_ids_handle|].
  destruct (accepted_dec i) as [Hi|Hn];
    [destruct (performed_dec c (DATA w)) as [Hc|Hc]|].
  - rewrite history_performed by done. unfold history.
    exists (default [] ((λ ch, [(next_id ch, HistoryLine (utcnow i) (user i) c)])
                         <$> get_channel_by_name (guild w) CHANNEL_HISTORY)).
    destruct (get_channel_by_name (guild w) CHANNEL_HISTORY); simpl; split; (done || lia).
  - exists []. rewrite handle_refused by done. unfold history. simpl. split; [lia|].
    destruct (get_channel_by_name _ _); simpl; by rewrite ?app_nil_r.
  - exists []. rewrite handle_rejected by done. unfold history. simpl. split; [lia|].
    destruct (get_channel_by_name _ _); simpl; by rewrite ?app_nil_r.
Qed.

Lemma commands_post_to_history_only_witness :
  message_ids (guild (handle (PropreIn 5) from_cmds (on_ready 1 first_run))) CHANNEL_BANQUE
  = Some [1].
Proof.
  destruct (commands_post_to_history_only (PropreIn 5) from_cmds (on_ready 1 first_run)
              CHANNEL_BANQUE) as [-> _]; [discriminate | reflexivity].
Defined.

Lemma mirrored_on_ready_settled now w name :
  mirrored w →
  DATA (on_ready now w) = DATA w
  ∧ message_ids (guild (on_ready now w)) name = message_ids (guild w) name.
Proof.
  intros (b & m & tb & tm & Hb & Hm & [Hpb _] & [Hpm _]). unfold on_ready.
  rewrite (ensure_status_messages_present w b m) by done.
  split; [done|]. apply message_ids_update_status_messages.
Qed.

Lemma mirrored_step_settled e w name :
  mirrored w → name ≠ CHANNEL_HISTORY →
  status_message_ids (DATA (step w e)) = status_message_ids (DATA w)
  ∧ message_ids (guild (step w e)) name = message_ids (guild w) name.
Proof.
  intros Hw Hne. destruct e as [now|c i]; simpl.
  - destruct (mirrored_on_ready_settled now w name Hw) as [-> ->]. done.
  - split; [|by apply message_ids_handle].
    destruct (accepted_dec i) as [Hi|Hn]; [|by rewrite DATA_handle_rejected].
    rewrite DATA_handle_accepted by done. apply updated_status_message_ids.
Qed.

Lemma mirrored_run_settled es w :
  mirrored w →
  status_message_ids (DATA (run es w)) = status_message_ids (DATA w)
  ∧ message_ids (guild (run es w)) CHANNEL_BANQUE = message_ids (guild w) CHANNEL_BANQUE
  ∧ message_ids (guild (run es w)) CHANNEL_MARCH = message_ids (guild w) CHANNEL_MARCH.
Proof.
  revert w. induction es as [|e es IH]; intros w Hw; [done|].
  change (run (e :: es) w) with (run es (step w e)).
  assert (mirrored (step w e)) as Hstep.
  { destruct e; simpl; [|by apply mirrored_handle].
    by apply on_ready_mirrors, has_status_channels_mirrored. }
  destruct (IH _ Hstep) as (-> & -> & ->).
  destruct (mirrored_step_settled e w CHANNEL_BANQUE Hw) as [-> ->]; [done|].
  by destruct (mirrored_step_settled e w CHANNEL_MARCH Hw) as [_ ->].
Qed.


